(** * The Markdown-to-notebook cell splitter of [notebook.py]

    A shallow embedding of [split_content_to_cells] and of the title step of
    the conversion loop in [exploring-python/pydantic/notebook.py], together
    with the Python string built-ins they call, and the properties of the
    splitter stated in the repository's specification.

    A Python [str] is a sequence of Unicode code points; it is modelled as a
    list of code points ([N]).  The splitter's local variables become the
    fields of a record that is threaded through the loop over the lines. *)

(** The development also covers the conversion loop around the splitter
    (file names, the order of the effects, what an exception leaves behind)
    and the functions of [setup.py] that prepare the environment; there the
    file system, the processes started and the console are an abstract
    world, and the properties are about the trace of effects. *)

From Stdlib Require Import String Ascii NArith ZArith Bool Arith Lia List.
Import ListNotations.

(** ** Python strings and the built-ins used by the script *)

Module Py.

Definition char := N.
Definition str := list char.

(** An ASCII literal of the script as a [str]. *)
Definition lit (s : string) : str :=
  map N_of_ascii (list_ascii_of_string s).

Definition LF : str := [10%N].

(** The string with no character. *)
Definition empty : str := [].

(** [a == b] on strings. *)
Fixpoint eqb (a b : str) : bool :=
  match a, b with
  | [], [] => true
  | x :: a', y :: b' => N.eqb x y && eqb a' b'
  | _, _ => false
  end.

(** Line boundaries of [str.splitlines]: LF, VT, FF, CR, FS, GS, RS, NEL,
    LINE SEPARATOR and PARAGRAPH SEPARATOR (CR LF counts as one). *)
Definition is_linebreak (c : char) : bool :=
  ((10 <=? c) && (c <=? 13) || (28 <=? c) && (c <=? 30)
   || (c =? 133) || (c =? 8232) || (c =? 8233))%N.

(** Characters removed by [str.strip()] (those with [str.isspace]). *)
Definition is_space (c : char) : bool :=
  ((9 <=? c) && (c <=? 13) || (28 <=? c) && (c <=? 32)
   || (c =? 133) || (c =? 160) || (c =? 5760)
   || (8192 <=? c) && (c <=? 8202)
   || (c =? 8232) || (c =? 8233) || (c =? 8239) || (c =? 8287)
   || (c =? 12288))%N.

(** [s.splitlines()]: [cur] is the line being read, [s] what is left of the
    text.  A line is closed at each boundary; text left after the last
    boundary is a line only when it is not empty. *)
Fixpoint splitlines_from (cur : str) (s : str) : list str :=
  match s with
  | [] => match cur with [] => [] | _ => [cur] end
  | c :: rest =>
      if is_linebreak c then
        match rest with
        | c' :: rest' =>
            if ((c =? 13) && (c' =? 10))%N
            then cur :: splitlines_from [] rest'
            else cur :: splitlines_from [] rest
        | [] => [cur]
        end
      else splitlines_from (cur ++ [c]) rest
  end.

Definition splitlines (s : str) : list str := splitlines_from [] s.

Fixpoint lstrip (s : str) : str :=
  match s with
  | c :: rest => if is_space c then lstrip rest else s
  | [] => []
  end.

Definition rstrip (s : str) : str := rev (lstrip (rev s)).

Definition strip (s : str) : str := rstrip (lstrip s).

Fixpoint startswith (s prefix : str) {struct prefix} : bool :=
  match prefix, s with
  | [], _ => true
  | p :: prefix', c :: s' => N.eqb c p && startswith s' prefix'
  | _ :: _, [] => false
  end.

(** [s[n:]] *)
Definition slice_from (n : nat) (s : str) : str := skipn n s.

(** [sep.join(parts)] *)
Fixpoint join (sep : str) (parts : list str) : str :=
  match parts with
  | [] => []
  | [p] => p
  | p :: ps => p ++ sep ++ join sep ps
  end.

(** [sub in s] *)
Fixpoint contains (s sub : str) : bool :=
  startswith s sub ||
  match s with
  | [] => false
  | _ :: s' => contains s' sub
  end.

(** [s.split(sep)] for a one-character separator. *)
Fixpoint split_from (sep : char) (cur : str) (s : str) : list str :=
  match s with
  | [] => [cur]
  | c :: rest =>
      if N.eqb c sep then cur :: split_from sep [] rest
      else split_from sep (cur ++ [c]) rest
  end.

Definition split (sep : char) (s : str) : list str := split_from sep [] s.

(** [s.replace(old, new)] for one-character [old] and [new]. *)
Definition replace (old new : char) (s : str) : str :=
  map (fun c => if N.eqb c old then new else c) s.

(** Case of the ASCII letters.  The names the script converts are the
    ASCII file names of [md_files]; other code points are left as they
    are and count as uncased. *)
Definition is_upper (c : char) : bool := ((65 <=? c) && (c <=? 90))%N.
Definition is_lower (c : char) : bool := ((97 <=? c) && (c <=? 122))%N.
Definition is_cased (c : char) : bool := is_upper c || is_lower c.
Definition to_upper (c : char) : char := if is_lower c then (c - 32)%N else c.
Definition to_lower (c : char) : char := if is_upper c then (c + 32)%N else c.

(** [s.title()]: a cased character is upper-cased when the character
    before it is not cased, and lower-cased otherwise.  With the case of
    the ASCII letters above this is [str.title] on strings of ASCII
    characters. *)
Fixpoint title_from (previous_is_cased : bool) (s : str) : str :=
  match s with
  | [] => []
  | c :: rest =>
      (if previous_is_cased then to_lower c else to_upper c)
        :: title_from (is_cased c) rest
  end.

Definition title (s : str) : str := title_from false s.

(** [s.rfind(c)] for one character: the last index of [c], or -1. *)
Fixpoint rfind_from (i : Z) (found : Z) (c : char) (s : str) : Z :=
  match s with
  | [] => found
  | x :: rest => rfind_from (i + 1) (if N.eqb x c then i else found) c rest
  end.

Definition rfind (c : char) (s : str) : Z := rfind_from 0 (-1) c s.

(** [os.path.splitext(p)[0]] (posixpath): the extension starts at the last
    dot of the last path component, unless only dots precede it there. *)
Definition splitext_root (p : str) : str :=
  let sepIndex := rfind 47%N p in
  let dotIndex := rfind 46%N p in
  if (sepIndex <? dotIndex)%Z then
    let stem := firstn (Z.to_nat (dotIndex - (sepIndex + 1)))
                       (skipn (Z.to_nat (sepIndex + 1)) p) in
    if existsb (fun c => negb (N.eqb c 46%N)) stem
    then firstn (Z.to_nat dotIndex) p
    else p
  else p.

(** Exceptions and results of Python expressions that can raise. *)
Inductive exn := IndexError.

Inductive result (A : Type) :=
| Ok (a : A)
| Raise (e : exn).
Arguments Ok {A} a.
Arguments Raise {A} e.

(** [l[i]] for a non-negative [i]. *)
Definition getitem {A : Type} (l : list A) (i : nat) : result A :=
  match nth_error l i with
  | Some x => Ok x
  | None => Raise IndexError
  end.

End Py.

Notation "'py' s" := (Py.lit s%string) (at level 1, s at level 0, only parsing).

(** ** Notebook cells ([nbformat.v4])

    Of a cell the script sets and reads its kind, its [source] and its
    [metadata] (a dict whose values are dicts of strings). *)

Module Nbf.

Inductive cell_type := markdown | code.

Definition dict := list (Py.str * list (Py.str * Py.str)).

Record cell := mk_cell {
  kind : cell_type;
  source : Py.str;
  metadata : dict
}.

Definition new_markdown_cell (src : Py.str) : cell :=
  {| kind := markdown; source := src; metadata := [] |}.

(** [new_code_cell(source)] when [md] is empty,
    [new_code_cell(source, metadata=md)] otherwise. *)
Definition new_code_cell (src : Py.str) (md : dict) : cell :=
  {| kind := code; source := src; metadata := md |}.

Definition is_markdown (c : cell) : bool :=
  match kind c with markdown => true | code => false end.

Definition is_code (c : cell) : bool :=
  match kind c with code => true | markdown => false end.

(** [c.metadata["kernelspec"]["name"]], when present. *)
Definition kernelspec_name (c : cell) : option Py.str :=
  match find (fun kv => Py.eqb (fst kv) (py "kernelspec")) (metadata c) with
  | Some (_, d) =>
      match find (fun kv => Py.eqb (fst kv) (py "name")) d with
      | Some (_, v) => Some v
      | None => None
      end
  | None => None
  end.

End Nbf.

(** ** The splitter *)

Import Nbf.

Definition fence : Py.str := py "```".

(** [line.strip().startswith("```")] *)
Definition is_fence (line : Py.str) : bool :=
  Py.startswith (Py.strip line) fence.

(** [{"kernelspec": {"name": "bash"}}] *)
Definition bash_metadata : dict :=
  [(py "kernelspec", [(py "name", py "bash")])].

(** The local variables of [split_content_to_cells]. *)
Record locals := mk_locals {
  cells : list cell;
  in_code_block : bool;
  code_block : list Py.str;
  markdown_block : list Py.str;
  current_code_type : Py.str
}.

Definition initial : locals :=
  {| cells := [];
     in_code_block := false;
     code_block := [];
     markdown_block := [];
     current_code_type := py "python" |}.

(** The cell appended at a closing fence. *)
Definition closing_cell (code_type : Py.str) (block : list Py.str) : cell :=
  if Py.eqb code_type (py "python")
  then new_code_cell (Py.join Py.LF block) []
  else new_code_cell (Py.join Py.LF block) bash_metadata.

(** One iteration of [for line in lines]. *)
Definition step (st : locals) (line : Py.str) : locals :=
  if is_fence line then
    if in_code_block st then
      {| cells := cells st ++ [closing_cell (current_code_type st) (code_block st)];
         in_code_block := negb (in_code_block st);
         code_block := [];
         markdown_block := markdown_block st;
         current_code_type := current_code_type st |}
    else
      {| cells := match markdown_block st with
                  | [] => cells st
                  | _ :: _ =>
                      cells st ++ [new_markdown_cell (Py.join Py.LF (markdown_block st))]
                  end;
         in_code_block := negb (in_code_block st);
         code_block := code_block st;
         markdown_block := [];
         current_code_type := Py.slice_from 3 (Py.strip line) |}
  else if in_code_block st then
    {| cells := cells st;
       in_code_block := in_code_block st;
       code_block := code_block st ++ [line];
       markdown_block := markdown_block st;
       current_code_type := current_code_type st |}
  else
    {| cells := cells st;
       in_code_block := in_code_block st;
       code_block := code_block st;
       markdown_block := markdown_block st ++ [line];
       current_code_type := current_code_type st |}.

(** The loop over the lines. *)
Definition scan (st : locals) (lines : list Py.str) : locals :=
  fold_left step lines st.

(** After the loop: the remaining markdown lines become a cell, and the
    cells are returned. *)
Definition finish (st : locals) : list cell :=
  match markdown_block st with
  | [] => cells st
  | _ :: _ => cells st ++ [new_markdown_cell (Py.join Py.LF (markdown_block st))]
  end.

(** The splitter from the lines on. *)
Definition split_lines (lines : list Py.str) : list cell :=
  finish (scan initial lines).

Definition split_content_to_cells (md_content : Py.str) : list cell :=
  split_lines (Py.splitlines md_content).

(** ** The title step of the conversion loop *)

(** [f"# {os.path.splitext(md_file)[0].replace('_', ' ').title()}"] *)
Definition title_text (md_file : Py.str) : Py.str :=
  py "# " ++ Py.title (Py.replace 95%N 32%N (Py.splitext_root md_file)).

(** The cells of the notebook written for [md_file]:
    [nb.cells = split_content_to_cells(md_content)], then the test on
    [nb.cells[0]['source']] and the insertion of the title cell. *)
Definition add_title (md_file : Py.str) (nb_cells : list cell)
  : Py.result (list cell) :=
  match Py.getitem nb_cells 0 with
  | Py.Raise e => Py.Raise e
  | Py.Ok first =>
      if negb (Py.startswith (source first) (py "# "))
      then Py.Ok (new_markdown_cell (title_text md_file) :: nb_cells)
      else Py.Ok nb_cells
  end.

Definition notebook_cells (md_file md_content : Py.str)
  : Py.result (list cell) :=
  add_title md_file (split_content_to_cells md_content).

(** ** Vocabulary of the specification *)

Definition non_fence (line : Py.str) : Prop := is_fence line = false.

Definition fence_count (lines : list Py.str) : nat :=
  length (filter is_fence lines).

(** Fences are properly paired when every opening fence has its closing
    fence: the number of fence lines is even. *)
Definition properly_paired (lines : list Py.str) : bool :=
  Nat.even (fence_count lines).

(** The lines end where a region has just been closed: they are empty or
    their last line is a fence. *)
Definition ends_closed (lines : list Py.str) : bool :=
  match rev lines with
  | [] => true
  | l :: _ => is_fence l
  end.

(** The text holds no three backticks in a row. *)
Definition no_triple_backtick (s : Py.str) : bool :=
  negb (Py.contains s fence).

(** The only line boundary that occurs in the text is LF. *)
Definition lf_only (s : Py.str) : bool :=
  forallb (fun c => implb (Py.is_linebreak c) (N.eqb c 10%N)) s.

(** [t] is [s], or [s] without its final newline. *)
Definition equal_up_to_trailing_newline (s t : Py.str) : Prop :=
  t = s \/ t ++ Py.LF = s.

(** The last cell is a markdown cell. *)
Fixpoint ends_with_markdown (cs : list cell) : bool :=
  match cs with
  | [] => false
  | [c] => is_markdown c
  | _ :: rest => ends_with_markdown rest
  end.

Fixpoint no_adjacent_markdown (cs : list cell) : bool :=
  match cs with
  | c :: (c' :: _) as rest =>
      negb (is_markdown c && is_markdown c') && no_adjacent_markdown rest
  | _ => true
  end.

(** Some code region of the lines is empty: a closing fence comes right
    after its opening fence.  [inside] tells whether the lines start inside a
    code region, [fresh] whether that region has no line yet. *)
Fixpoint empty_region (inside fresh : bool) (lines : list Py.str) : bool :=
  match lines with
  | [] => false
  | l :: rest =>
      if is_fence l then
        if inside then fresh || empty_region false false rest
        else empty_region true true rest
      else empty_region inside false rest
  end.

Definition has_empty_region (lines : list Py.str) : bool :=
  empty_region false false lines.

(** The lines stored in a cell, and in a sequence of cells. *)
Definition lines_of_cell (c : cell) : list Py.str := Py.split 10%N (source c).

Definition content (cs : list cell) : list Py.str := flat_map lines_of_cell cs.

(** The lines of the text that are not fence lines. *)
Definition non_fence_lines (lines : list Py.str) : list Py.str :=
  filter (fun l => negb (is_fence l)) lines.

(** Reconstruction in the words of the specification: the stored text of the
    blocks in order, with a generic fence line put back between a markdown
    block and a code block that are next to each other. *)
Fixpoint reconstruct (cs : list cell) : list Py.str :=
  match cs with
  | [] => []
  | c :: rest =>
      lines_of_cell c ++
      match rest with
      | [] => []
      | c' :: _ =>
          (if Bool.eqb (is_markdown c) (is_markdown c') then [] else [fence])
            ++ reconstruct rest
      end
  end.

(** The lines of the text with every fence line replaced by the generic
    fence (the language tags are kept apart from the text). *)
Definition with_generic_fences (lines : list Py.str) : list Py.str :=
  map (fun l => if is_fence l then fence else l) lines.

(** A cell that carries [tag] as the name of its execution kernel. *)
Definition carries_tag (c : cell) (tag : Py.str) : Prop :=
  kernelspec_name c = Some tag.

(** Replacing the cells, or the code type, of the local variables. *)
Definition set_cells (cs : list cell) (st : locals) : locals :=
  {| cells := cs;
     in_code_block := in_code_block st;
     code_block := code_block st;
     markdown_block := markdown_block st;
     current_code_type := current_code_type st |}.

Definition set_code_type (t : Py.str) (st : locals) : locals :=
  {| cells := cells st;
     in_code_block := in_code_block st;
     code_block := code_block st;
     markdown_block := markdown_block st;
     current_code_type := t |}.

(** What holds of the local variables throughout the loop: outside a code
    region no code line is pending, inside one no markdown line is. *)
Definition consistent (st : locals) : Prop :=
  (in_code_block st = false -> code_block st = []) /\
  (in_code_block st = true -> markdown_block st = []).

(** A line holds no line boundary, as every line of [splitlines]. *)
Definition no_break (l : Py.str) : Prop :=
  Forall (fun c => Py.is_linebreak c = false) l.

(** The lines read and not yet put in a cell. *)
Definition pending (st : locals) : list Py.str :=
  code_block st ++ markdown_block st.

Definition clean (st : locals) : Prop :=
  Forall no_break (code_block st) /\ Forall no_break (markdown_block st).

(** No two markdown cells are next to each other, and outside a code region
    the last cell, if any, is a code cell. *)
Definition tidy (st : locals) : Prop :=
  no_adjacent_markdown (cells st) = true /\
  (in_code_block st = false -> ends_with_markdown (cells st) = false).

(** ** Counting cells, and inputs that differ in white space only *)

Definition count_code (cs : list cell) : nat := length (filter is_code cs).

Definition count_markdown (cs : list cell) : nat :=
  length (filter is_markdown cs).

(** The two shapes of cell the splitter makes. *)
Definition splitter_cell (c : cell) : Prop :=
  (kind c = markdown /\ metadata c = []) \/
  (kind c = code /\ (metadata c = [] \/ metadata c = bash_metadata)).

(** The text with every LF written as CR LF. *)
Definition to_crlf (s : Py.str) : Py.str :=
  flat_map (fun c => if N.eqb c 10%N then [13%N; 10%N] else [c]) s.

(** Only characters that [strip] removes. *)
Definition all_space (ws : Py.str) : bool := forallb Py.is_space ws.

(** The loop has emitted a cell, or holds markdown lines that will make one. *)
Definition productive (st : locals) : Prop :=
  cells st <> [] \/ (in_code_block st = false /\ markdown_block st <> []).

(** ** The conversion loop of the script

    Paths are joined as on POSIX ([posixpath]).  The file system and the
    exceptions its operations raise are left abstract: reading a file gives
    its text or raises, writing a notebook changes the file system and may
    raise.  What the script prints is kept as the list of printed lines. *)

Module OsPath.

(** [s.endswith(suffix)] *)
Definition endswith (s suffix : Py.str) : bool :=
  Py.startswith (rev s) (rev suffix).

Definition sep : Py.str := py "/".

(** One round of the loop of [os.path.join(a, *p)]. *)
Definition join_step (path b : Py.str) : Py.str :=
  if Py.startswith b sep then b
  else if match path with [] => true | _ :: _ => endswith path sep end
       then path ++ b
       else path ++ sep ++ b.

(** [os.path.join(a, *p)] *)
Definition join (a : Py.str) (p : list Py.str) : Py.str :=
  fold_left join_step p a.

End OsPath.

Definition md_files_path : Py.str := py "./".

Definition md_files : list Py.str :=
  [ py "1_1_what_is_pydantic.md";
    py "1_2_why_use_pydantic.md";
    py "1_3_installation_and_setup.md";
    py "1_4_basic_concepts_data_validation_and_settings_management.md";
    py "2_1_creating_basic_models.md";
    py "2_2_field_types_and_annotations.md";
    py "2_3_default_values.md";
    py "2_4_field_constraints.md";
    py "2_5_custom_field_types.md";
    py "2_6_nested_models.md";
    py "2_7_model_inheritance.md";
    py "2_8_python_type_hinting_and_pydantic.md";
    py "3_1_basic_validation.md";
    py "3_2_custom_validators.md";
    py "3_3_pre_and_post_processing_hooks.md";
    py "3_4_root_validators.md";
    py "3_5_field_level_validation.md";
    py "3_6_handling_validation_errors.md" ].

Definition output_dir : Py.str := py "notebooks".

(** [os.path.join(output_dir, os.path.splitext(md_file)[0] + '.ipynb')] *)
Definition notebook_filename (md_file : Py.str) : Py.str :=
  OsPath.join output_dir [Py.splitext_root md_file ++ py ".ipynb"].

(** [os.path.join(md_files_path, md_file)] *)
Definition md_path (md_file : Py.str) : Py.str :=
  OsPath.join md_files_path [md_file].

(** [f"Notebook created successfully: {notebook_filename}"] *)
Definition created_message (md_file : Py.str) : Py.str :=
  py "Notebook created successfully: " ++ notebook_filename md_file.

(** [f"All notebooks have been created and saved in the '{output_dir}' directory."] *)
Definition final_message : Py.str :=
  py "All notebooks have been created and saved in the '" ++ output_dir
    ++ py "' directory.".

(** The character [c] occurs in [s]. *)
Definition has_char (c : Py.char) (s : Py.str) : bool := existsb (N.eqb c) s.

(** An exception that ends the script: one raised by the script's own
    expressions, or one raised by the file system. *)
Inductive uncaught (E : Type) :=
| PyExn (e : Py.exn)
| IoExn (e : E).
Arguments PyExn {E} e.
Arguments IoExn {E} e.

(** The file system and the lines printed so far. *)
Record process (F : Type) := mk_process {
  files : F;
  stdout : list Py.str
}.
Arguments mk_process {F} files stdout.
Arguments files {F} p.
Arguments stdout {F} p.

Section Script.

Variables F E : Type.

(** [with open(path, 'r') as f: f.read()] *)
Variable read_text : F -> Py.str -> Py.str + E.

(** [with open(path, 'w') as f: nbf.write(nb, f)], for the notebook with
    the given cells. *)
Variable write_notebook : F -> Py.str -> list cell -> F * option E.

(** [os.makedirs(path, exist_ok=True)] *)
Variable makedirs : F -> Py.str -> F * option E.

(** The body of [for md_file in md_files]. *)
Definition convert_file (md_file : Py.str) (w : process F)
  : process F * option (uncaught E) :=
  match read_text (files w) (md_path md_file) with
  | inr e => (w, Some (IoExn e))
  | inl md_content =>
      match notebook_cells md_file md_content with
      | Py.Raise e => (w, Some (PyExn e))
      | Py.Ok nb_cells =>
          match write_notebook (files w) (notebook_filename md_file) nb_cells with
          | (files', Some e) =>
              ({| files := files'; stdout := stdout w |}, Some (IoExn e))
          | (files', None) =>
              ({| files := files';
                  stdout := stdout w ++ [created_message md_file] |}, None)
          end
      end
  end.

(** The loop: an exception ends it. *)
Fixpoint convert_files (mds : list Py.str) (w : process F)
  : process F * option (uncaught E) :=
  match mds with
  | [] => (w, None)
  | md_file :: rest =>
      match convert_file md_file w with
      | (w', Some e) => (w', Some e)
      | (w', None) => convert_files rest w'
      end
  end.

(** The script from [os.makedirs] on. *)
Definition script (w : process F) : process F * option (uncaught E) :=
  match makedirs (files w) output_dir with
  | (files', Some e) =>
      ({| files := files'; stdout := stdout w |}, Some (IoExn e))
  | (files', None) =>
      match convert_files md_files {| files := files'; stdout := stdout w |} with
      | (w', Some e) => (w', Some e)
      | (w', None) =>
          ({| files := files w'; stdout := stdout w' ++ [final_message] |}, None)
      end
  end.

(** The file is converted: it is read, the title step returns cells, and
    the notebook is written, all without an exception; [fs'] is the file
    system the writing leaves. *)
Definition converted (md_file : Py.str) (fs fs' : F) : Prop :=
  exists md_content nb_cells,
    read_text fs (md_path md_file) = inl md_content /\
    notebook_cells md_file md_content = Py.Ok nb_cells /\
    write_notebook fs (notebook_filename md_file) nb_cells = (fs', None).

(** The files are converted one after the other, from [fs] to [fs']. *)
Inductive all_converted : list Py.str -> F -> F -> Prop :=
| all_converted_nil fs : all_converted [] fs fs
| all_converted_cons md_file rest fs fs1 fs2 :
    converted md_file fs fs1 ->
    all_converted rest fs1 fs2 ->
    all_converted (md_file :: rest) fs fs2.

(** The conversion of the file ends in the exception [e]: raised by the
    reading, by the title step or by the writing. *)
Definition fails_with (md_file : Py.str) (fs : F) (e : uncaught E) : Prop :=
  (exists e', read_text fs (md_path md_file) = inr e' /\ e = IoExn e') \/
  (exists md_content e',
      read_text fs (md_path md_file) = inl md_content /\
      notebook_cells md_file md_content = Py.Raise e' /\ e = PyExn e') \/
  (exists md_content nb_cells fs' e',
      read_text fs (md_path md_file) = inl md_content /\
      notebook_cells md_file md_content = Py.Ok nb_cells /\
      write_notebook fs (notebook_filename md_file) nb_cells = (fs', Some e') /\
      e = IoExn e').

End Script.

Arguments convert_file {F E} read_text write_notebook md_file w.
Arguments convert_files {F E} read_text write_notebook mds w.
Arguments script {F E} read_text write_notebook makedirs w.
Arguments converted {F E} read_text write_notebook md_file fs fs'.
Arguments all_converted {F E} read_text write_notebook mds fs fs'.
Arguments fails_with {F E} read_text write_notebook md_file fs e.

(** ** The set-up script ([setup.py])

    The functions of the script act on the world outside: they start
    processes, read and write files, print and log.  The world is left
    abstract; what the script does to it is kept in a trace of events, in
    the order in which they happen.  A computation takes the world and the
    trace so far and gives them back with a value, or with the exception
    that was raised and not caught. *)

Module Setup.

(** The colours of [colorama.Fore] the script uses. *)
Inductive color := RED | GREEN | YELLOW | CYAN | LIGHTYELLOW_EX.

Inductive level := INFO | ERROR.

(** [subprocess.CompletedProcess] with captured text output. *)
Record completed := mk_completed {
  returncode : Z;
  out : Py.str;
  err : Py.str
}.

Inductive event :=
| Printed (text : Py.str) (c : color) (end_ : Py.str)
| Logged (l : level) (text : Py.str)
| Flushed
| Ran (command : list Py.str) (status : option Z)
| Wrote (path content : Py.str)
| Removed (path : Py.str)
| CreatedVenv (path : Py.str).

Record state (W : Type) := mk_state {
  world : W;
  trace : list event
}.
Arguments mk_state {W} world trace.
Arguments world {W} s.
Arguments trace {W} s.

Definition M (W E A : Type) : Type := state W -> state W * (A + E).

Definition ret {W E A : Type} (a : A) : M W E A := fun s => (s, inl a).

Definition bind {W E A B : Type} (m : M W E A) (k : A -> M W E B) : M W E B :=
  fun s =>
    match m s with
    | (s', inl a) => k a s'
    | (s', inr e) => (s', inr e)
    end.

Definition emit {W E : Type} (ev : event) : M W E unit :=
  fun s => ({| world := world s; trace := trace s ++ [ev] |}, inl tt).

(** The commands run, with their exit status ([None]: the process could
    not be run). *)
Fixpoint ran (evs : list event) : list (list Py.str * option Z) :=
  match evs with
  | [] => []
  | Ran command status :: rest => (command, status) :: ran rest
  | _ :: rest => ran rest
  end.

(** The files written. *)
Fixpoint wrote (evs : list event) : list (Py.str * Py.str) :=
  match evs with
  | [] => []
  | Wrote path content :: rest => (path, content) :: wrote rest
  | _ :: rest => wrote rest
  end.

(** The directory trees removed. *)
Fixpoint removed (evs : list event) : list Py.str :=
  match evs with
  | [] => []
  | Removed path :: rest => path :: removed rest
  | _ :: rest => removed rest
  end.

(** The virtual environments asked for. *)
Fixpoint created (evs : list event) : list Py.str :=
  match evs with
  | [] => []
  | CreatedVenv path :: rest => path :: created rest
  | _ :: rest => created rest
  end.

(** The texts shown on the console or put in the log. *)
Fixpoint shown (evs : list event) : list Py.str :=
  match evs with
  | [] => []
  | Printed text _ _ :: rest => text :: shown rest
  | Logged _ text :: rest => text :: shown rest
  | _ :: rest => shown rest
  end.

(** [str(n)] for a natural number: its decimal digits. *)
Fixpoint digits (u : Decimal.uint) : Py.str :=
  match u with
  | Decimal.Nil => []
  | Decimal.D0 u' => 48%N :: digits u'
  | Decimal.D1 u' => 49%N :: digits u'
  | Decimal.D2 u' => 50%N :: digits u'
  | Decimal.D3 u' => 51%N :: digits u'
  | Decimal.D4 u' => 52%N :: digits u'
  | Decimal.D5 u' => 53%N :: digits u'
  | Decimal.D6 u' => 54%N :: digits u'
  | Decimal.D7 u' => 55%N :: digits u'
  | Decimal.D8 u' => 56%N :: digits u'
  | Decimal.D9 u' => 57%N :: digits u'
  end.

Definition str_of_N (n : N) : Py.str := digits (N.to_uint n).

End Setup.

Declare Scope setup_scope.
Delimit Scope setup_scope with setup.
Notation "x <- c1 ;; c2" := (Setup.bind c1 (fun x => c2))
  (at level 61, c1 at next level, right associativity) : setup_scope.
Notation "c1 ;; c2" := (Setup.bind c1 (fun _ => c2))
  (at level 61, right associativity) : setup_scope.

Section SetupScript.

Import Setup.
Local Open Scope setup_scope.

Variables W E : Type.

(** [subprocess.run(command, stdout=PIPE, stderr=PIPE, text=True)] without
    its [check]: the finished process, or the exception raised when it
    cannot be run. *)
Variable subprocess_run : W -> list Py.str -> W * (completed + E).

(** [str(e)] for the [CalledProcessError] of a command and its exit status. *)
Variable called_process_error_str : list Py.str -> Z -> Py.str.

(** [os.path.exists(path)] *)
Variable path_exists : W -> Py.str -> bool.

(** [getpass.getpass(prompt='')] *)
Variable getpass : W -> W * (Py.str + E).

(** [with open(path, 'w') as f: f.write(content)] *)
Variable write_text : W -> Py.str -> Py.str -> W * option E.

(** [with open(path, 'r') as f: f.read()] *)
Variable read_text : W -> Py.str -> Py.str + E.

(** [print_color(text, color, end)]: the text is printed, then logged
    without its colour. *)
Definition print_color (text : Py.str) (c : color) (end_ : Py.str)
  : M W E unit :=
  emit (Printed text c end_) ;; emit (Logged INFO text).

Definition run (command : list Py.str) : M W E completed :=
  fun s =>
    match subprocess_run (world s) command with
    | (w', inl result) =>
        ({| world := w';
            trace := trace s ++ [Ran command (Some (returncode result))] |},
         inl result)
    | (w', inr e) =>
        ({| world := w'; trace := trace s ++ [Ran command None] |}, inr e)
    end.

Definition create_env_file : M W E unit :=
  fun s =>
    if path_exists (world s) (py ".env") then
      print_color ([128193%N] ++ py " .env file already exists. Skipping creation.")
                  YELLOW Py.LF s
    else
      (print_color ([128273%N] ++ py " Please enter your OpenAI API key: ")
                   CYAN Py.empty ;;
       emit Flushed ;;
       openai_api_key <- (fun s => match getpass (world s) with
                                   | (w', r) =>
                                       ({| world := w'; trace := trace s |}, r)
                                   end) ;;
       (fun s =>
          let content := py "OPENAI_API_KEY=" ++ openai_api_key ++ Py.LF in
          match write_text (world s) (py ".env") content with
          | (w', None) =>
              ({| world := w';
                  trace := trace s ++ [Wrote (py ".env") content] |}, inl tt)
          | (w', Some e) =>
              ({| world := w';
                  trace := trace s ++ [Wrote (py ".env") content] |}, inr e)
          end) ;;
       print_color ([9989%N] ++ py " .env file created successfully.")
                   GREEN Py.LF) s.

(** [run_command(command, use_sudo)]; with [check=True] an exit status
    other than 0 raises [CalledProcessError], which is caught here. *)
Definition run_command (command : list Py.str) (use_sudo : bool)
  : M W E (option Py.str) :=
  let command := if use_sudo then py "sudo" :: command else command in
  result <- run command ;;
  if (returncode result =? 0)%Z then
    emit (Logged INFO (py "Command executed: " ++ Py.join (py " ") command)) ;;
    emit (Logged INFO (py "Command output: " ++ out result)) ;;
    ret (Some (out result))
  else
    let error_msg :=
      py "Error executing command: "
        ++ called_process_error_str command (returncode result) in
    print_color error_msg RED Py.LF ;;
    emit (Logged ERROR error_msg) ;;
    emit (Logged ERROR (py "Command error output: " ++ err result)) ;;
    ret None.

Definition install_python_venv (version : Py.str) : M W E bool :=
  print_color (py "Attempting to install python" ++ version
                 ++ py "-venv package...") YELLOW Py.LF ;;
  let update_command := [py "apt"; py "update"] in
  let install_command :=
    [py "apt"; py "install"; py "-y"; py "python" ++ version ++ py "-venv"] in
  updated <- run_command update_command true ;;
  match updated with
  | Some _ =>
      installed <- run_command install_command true ;;
      match installed with
      | Some _ =>
          print_color ([9989%N] ++ py " python" ++ version
                         ++ py "-venv package installed successfully.")
                      GREEN Py.LF ;;
          ret true
      | None =>
          print_color ([10060%N] ++ py " Failed to install python" ++ version
                         ++ py "-venv package. Please install it manually.")
                      RED Py.LF ;;
          ret false
      end
  | None =>
      print_color ([10060%N] ++ py " Failed to install python" ++ version
                     ++ py "-venv package. Please install it manually.")
                  RED Py.LF ;;
      ret false
  end.

Definition show_command (python_path package : Py.str) : list Py.str :=
  [python_path; py "-m"; py "pip"; py "show"; package].

Definition pip_install_command (python_path package : Py.str) : list Py.str :=
  [python_path; py "-m"; py "pip"; py "install"; package].

(** The loop [for package in requirements] of [install_requirements].
    Neither call of [subprocess.run] has [check=True], so the handler of
    [CalledProcessError] around the body is never entered. *)
Fixpoint install_packages (python_path : Py.str) (requirements : list Py.str)
  : M W E bool :=
  match requirements with
  | [] => ret true
  | package :: rest =>
      result <- run (show_command python_path package) ;;
      if (returncode result =? 0)%Z then
        print_color (py "  " ++ [9989%N] ++ py " " ++ package
                       ++ py " is already installed.") GREEN Py.LF ;;
        install_packages python_path rest
      else
        install_result <- run (pip_install_command python_path package) ;;
        if (returncode install_result =? 0)%Z then
          print_color (py "  " ++ [9989%N] ++ py " Installed " ++ package
                         ++ py " successfully.") GREEN Py.LF ;;
          install_packages python_path rest
        else
          let error_msg :=
            py "  " ++ [10060%N] ++ py " Failed to install " ++ package
              ++ py ". Error: " ++ err install_result in
          print_color error_msg RED Py.LF ;;
          emit (Logged ERROR error_msg) ;;
          ret false
  end.

Definition install_requirements (python_path : Py.str) : M W E bool :=
  print_color (py "Installing required packages:") CYAN Py.LF ;;
  text <- (fun s => (s, read_text (world s) (py "requirements.txt"))) ;;
  let requirements := Py.splitlines text in
  install_packages python_path requirements.

(** [sys.version_info.major] and [sys.version_info.minor] *)
Variables major minor : N.

(** [f"{sys.version_info.major}.{sys.version_info.minor}"] *)
Definition get_python_version : Py.str :=
  str_of_N major ++ py "." ++ str_of_N minor.

(** [os.getcwd()] *)
Variable getcwd : W -> Py.str + E.

(** [os.path.join] of the platform the script runs on. *)
Variable os_path_join : Py.str -> list Py.str -> Py.str.

(** [shutil.rmtree(path)] *)
Variable rmtree : W -> Py.str -> W * option E.

(** [is_venv_installed()]: whether [import ensurepip] succeeds. *)
Variable is_venv_installed : W -> bool.

(** [venv.create(path, with_pip=True)]: done, or the text of the
    [CalledProcessError] it raised, or another exception. *)
Variable venv_create : W -> Py.str -> W * option (Py.str + E).

(** [platform.system()] *)
Variable platform_system : Py.str.

(** The paths [setup_venv] makes for the interpreter and the activation
    script of the environment. *)
Definition python_path_of (venv_path : Py.str) : Py.str :=
  if Py.eqb platform_system (py "Windows")
  then os_path_join venv_path [py "Scripts"; py "python.exe"]
  else os_path_join venv_path [py "bin"; py "python"].

Definition activate_path : Py.str :=
  if Py.eqb platform_system (py "Windows")
  then os_path_join (py ".") [py "venv"; py "Scripts"; py "activate"]
  else os_path_join (py ".") [py "venv"; py "bin"; py "activate"].

(** The end of [setup_venv], from the creation of the environment on. *)
Definition create_and_install (venv_path : Py.str) : M W E (option Py.str) :=
  created_ <- (fun s =>
                 match venv_create (world s) venv_path with
                 | (w', None) =>
                     ({| world := w';
                         trace := trace s ++ [CreatedVenv venv_path] |},
                      inl None)
                 | (w', Some (inl message)) =>
                     ({| world := w';
                         trace := trace s ++ [CreatedVenv venv_path] |},
                      inl (Some message))
                 | (w', Some (inr e)) =>
                     ({| world := w';
                         trace := trace s ++ [CreatedVenv venv_path] |},
                      inr e)
                 end) ;;
  match created_ with
  | Some message =>
      let error_msg :=
        [10060%N] ++ py " Virtual environment creation failed: " ++ message in
      print_color error_msg RED Py.LF ;;
      emit (Logged ERROR error_msg) ;;
      ret None
  | None =>
      print_color ([9989%N] ++ py " Virtual environment created at " ++ venv_path)
                  GREEN Py.LF ;;
      installed <- install_requirements (python_path_of venv_path) ;;
      if negb installed then ret None else ret (Some activate_path)
  end.

(** The middle of [setup_venv]: the [venv] module is installed when it is
    missing, and the script goes on only when that has worked. *)
Definition ensure_venv_and_create (venv_path python_version : Py.str)
  : M W E (option Py.str) :=
  fun s =>
    if negb (is_venv_installed (world s)) then
      (print_color (py "python3-venv is not installed. Attempting to install it...")
                   YELLOW Py.LF ;;
       installed <- install_python_venv python_version ;;
       if negb installed then
         print_color (py "Failed to install python3-venv. Please install it manually and run this script again.")
                     RED Py.LF ;;
         ret None
       else create_and_install venv_path) s
    else create_and_install venv_path s.

(** The start of [setup_venv]: an environment that exists is removed. *)
Definition remove_existing (venv_path : Py.str) : M W E unit :=
  fun s =>
    if path_exists (world s) venv_path then
      (print_color (py "Removing existing virtual environment at " ++ venv_path)
                   YELLOW Py.LF ;;
       (fun s => match rmtree (world s) venv_path with
                 | (w', None) =>
                     ({| world := w';
                         trace := trace s ++ [Removed venv_path] |}, inl tt)
                 | (w', Some e) =>
                     ({| world := w';
                         trace := trace s ++ [Removed venv_path] |}, inr e)
                 end) ;;
       print_color ([9989%N] ++ py " Existing virtual environment removed.")
                   GREEN Py.LF) s
    else ret tt s.

(** [setup_venv()]: [None] stands for the [False] it returns, [Some] for
    the path of the activation script. *)
Definition setup_venv : M W E (option Py.str) :=
  cwd <- (fun s => (s, getcwd (world s))) ;;
  let venv_path := os_path_join cwd [py "venv"] in
  let python_version := get_python_version in
  remove_existing venv_path ;;
  ensure_venv_and_create venv_path python_version.

End SetupScript.

Arguments print_color {W E} text c end_ s.
Arguments run {W E} subprocess_run command s.
Arguments create_env_file {W E} path_exists getpass write_text s.
Arguments run_command {W E} subprocess_run called_process_error_str command use_sudo s.
Arguments install_python_venv {W E} subprocess_run called_process_error_str version s.
Arguments install_packages {W E} subprocess_run python_path requirements s.
Arguments install_requirements {W E} subprocess_run read_text python_path s.
Arguments create_and_install {W E} subprocess_run read_text os_path_join
  venv_create platform_system venv_path s.
Arguments ensure_venv_and_create {W E} subprocess_run called_process_error_str
  read_text os_path_join is_venv_installed venv_create platform_system
  venv_path python_version s.
Arguments remove_existing {W E} path_exists rmtree venv_path s.
Arguments setup_venv {W E} subprocess_run called_process_error_str path_exists
  read_text major minor getcwd os_path_join rmtree is_venv_installed
  venv_create platform_system s.

(** Every command runs under [sudo]. *)
Definition all_sudo (l : list (list Py.str * option Z)) : Prop :=
  forall c, In c l -> exists tl, fst c = py "sudo" :: tl.

(** Only the two [apt] commands of [install_python_venv]. *)
Definition apt_only (version : Py.str) (l : list (list Py.str * option Z))
  : Prop :=
  forall c,
    In c l ->
    fst c = [py "sudo"; py "apt"; py "update"] \/
    fst c = [py "sudo"; py "apt"; py "install"; py "-y";
             py "python" ++ version ++ py "-venv"].

(** Only [pip show] and [pip install], run by the interpreter [python_path]. *)
Definition pip_only (python_path : Py.str)
           (l : list (list Py.str * option Z)) : Prop :=
  forall c,
    In c l ->
    exists package,
      fst c = show_command python_path package \/
      fst c = pip_install_command python_path package.

(** No [pip show] and no [pip install], by whatever interpreter. *)
Definition no_pip (l : list (list Py.str * option Z)) : Prop :=
  forall c python_path package,
    In c l ->
    fst c <> show_command python_path package /\
    fst c <> pip_install_command python_path package.

(** The commands of the loop over the requirements, read off the trace:
    for each package in turn [pip show], followed by [pip install] when the
    package is not there; the loop ends with the list, with an install that
    fails ([Some false]) or with a process that cannot be run ([None]). *)
Inductive pip_commands (python_path : Py.str)
  : list Py.str -> list (list Py.str * option Z) -> option bool -> Prop :=
| pip_done : pip_commands python_path [] [] (Some true)
| pip_present package rest l r :
    pip_commands python_path rest l r ->
    pip_commands python_path (package :: rest)
                 ((show_command python_path package, Some 0%Z) :: l) r
| pip_installed package rest rc l r :
    rc <> 0%Z ->
    pip_commands python_path rest l r ->
    pip_commands python_path (package :: rest)
                 ((show_command python_path package, Some rc)
                    :: (pip_install_command python_path package, Some 0%Z) :: l) r
| pip_failed package rest rc rc' :
    rc <> 0%Z -> rc' <> 0%Z ->
    pip_commands python_path (package :: rest)
                 [(show_command python_path package, Some rc);
                  (pip_install_command python_path package, Some rc')]
                 (Some false)
| pip_show_raised package rest :
    pip_commands python_path (package :: rest)
                 [(show_command python_path package, None)] None
| pip_install_raised package rest rc :
    rc <> 0%Z ->
    pip_commands python_path (package :: rest)
                 [(show_command python_path package, Some rc);
                  (pip_install_command python_path package, None)] None.

(** What a computation returned, without the exception. *)
Definition returned {A E : Type} (r : A + E) : option A :=
  match r with
  | inl a => Some a
  | inr _ => None
  end.

(** Reconstruction with the fences of every code block: the stored text of
    the blocks in order, the text of a code block between two generic fence
    lines. *)
Definition wrapped_lines (c : cell) : list Py.str :=
  if is_code c then [fence] ++ lines_of_cell c ++ [fence]
  else lines_of_cell c.

Definition rebuild (cs : list cell) : list Py.str := flat_map wrapped_lines cs.

(** The lines of the region the loop is in, with the generic fence that
    opened it when it is a code region. *)
Definition open_text (st : locals) : list Py.str :=
  if in_code_block st then fence :: code_block st else markdown_block st.

(** Only characters of ASCII, on which [Py.title] is [str.title]. *)
Definition is_ascii (s : Py.str) : bool := forallb (fun c => (c <? 128)%N) s.

(** ** Examples from the specification *)

Example spec_scenario :
  split_content_to_cells
    (py "# Title" ++ Py.LF ++ py "Some text." ++ Py.LF ++
     py "```python" ++ Py.LF ++ py "print(1)" ++ Py.LF ++ py "```" ++ Py.LF ++
     py "More text." ++ Py.LF ++
     py "```bash" ++ Py.LF ++ py "echo hi" ++ Py.LF ++ py "```")
  = [ new_markdown_cell (py "# Title" ++ Py.LF ++ py "Some text.");
      new_code_cell (py "print(1)") [];
      new_markdown_cell (py "More text.");
      new_code_cell (py "echo hi") bash_metadata ].
Proof. reflexivity. Qed.

Example title_text_example :
  title_text (py "1_1_what_is_pydantic.md") = py "# 1 1 What Is Pydantic".
Proof. reflexivity. Qed.

(** ** Facts about the string built-ins *)

Module PyFacts.
Import Py.

Lemma eqb_eq (a b : str) : eqb a b = true <-> a = b.
Proof.
  revert b; induction a as [|x a IH]; intros [|y b]; simpl;
    try (split; [discriminate | discriminate]); try tauto.
  rewrite andb_true_iff, N.eqb_eq, IH.
  split; [intros [-> ->]; reflexivity | intros H; injection H; auto].
Qed.

Lemma eqb_refl (a : str) : eqb a a = true.
Proof. apply eqb_eq; reflexivity. Qed.

Lemma eqb_neq (a b : str) : eqb a b = false <-> a <> b.
Proof.
  rewrite <- eqb_eq. destruct (eqb a b); split; congruence.
Qed.

Lemma startswith_app (s prefix : str) :
  startswith s prefix = true <-> exists r, s = prefix ++ r.
Proof.
  revert s; induction prefix as [|p prefix IH]; intros s; simpl.
  - split; [exists s; reflexivity | reflexivity].
  - destruct s as [|c s].
    + split; [discriminate | intros [r Hr]; discriminate].
    + rewrite andb_true_iff, N.eqb_eq, IH. split.
      * intros [-> [r ->]]. exists r; reflexivity.
      * intros [r Hr]. injection Hr as -> ->. eauto.
Qed.

(** A string that holds [sub] somewhere satisfies [sub in s]. *)
Lemma contains_infix (sub a b : str) : contains (a ++ sub ++ b) sub = true.
Proof.
  induction a as [|x a IH]; simpl.
  - assert (H : startswith (sub ++ b) sub = true)
      by (apply startswith_app; eauto).
    destruct (sub ++ b); simpl in *; rewrite H; reflexivity.
  - rewrite IH. apply orb_true_r.
Qed.

Lemma lstrip_suffix (s : str) : exists a, s = a ++ lstrip s.
Proof.
  induction s as [|c s [a Ha]]; simpl.
  - exists []; reflexivity.
  - destruct (is_space c).
    + exists (c :: a). simpl. congruence.
    + exists []; reflexivity.
Qed.

Lemma rstrip_prefix (s : str) : exists b, s = rstrip s ++ b.
Proof.
  unfold rstrip. destruct (lstrip_suffix (rev s)) as [a Ha].
  exists (rev a).
  rewrite <- rev_app_distr, <- Ha, rev_involutive. reflexivity.
Qed.

(** [s.strip()] is a piece of [s]. *)
Lemma strip_infix (s : str) : exists a b, s = a ++ strip s ++ b.
Proof.
  unfold strip.
  destruct (lstrip_suffix s) as [a Ha].
  destruct (rstrip_prefix (lstrip s)) as [b Hb].
  exists a, b. rewrite <- Hb. exact Ha.
Qed.

Lemma splitlines_from_nil (cur s : str) :
  splitlines_from cur s = [] <-> cur = [] /\ s = [].
Proof.
  revert cur; induction s as [|c s IH]; intros cur; simpl.
  - destruct cur; split; try tauto; try discriminate.
    intros [H _]; discriminate.
  - destruct (is_linebreak c).
    + destruct s as [|c' s'];
        [|destruct ((c =? 13) && (c' =? 10))%N];
        (split; [discriminate | intros [_ H]; discriminate]).
    + rewrite IH. split.
      * intros [H _]. destruct cur; discriminate.
      * intros [_ H]; discriminate.
Qed.

Lemma splitlines_nil (s : str) : splitlines s = [] <-> s = [].
Proof. unfold splitlines. rewrite splitlines_from_nil. tauto. Qed.

(** Induction along the recursion of [splitlines_from], which steps over
    one character, or over two at a CR LF. *)
Lemma str_ind2 (P : str -> Prop) :
  P [] ->
  (forall c, P [c]) ->
  (forall c c' s, P s -> P (c' :: s) -> P (c :: c' :: s)) ->
  forall s, P s.
Proof.
  intros H0 H1 H2 s.
  enough (H : P s /\ forall c, P (c :: s)) by apply H.
  induction s as [|c' s [IHs IHc]]; split; auto.
Qed.

(** Every line of [splitlines] is a piece of the text. *)
Lemma splitlines_from_infix (s cur l : str) :
  In l (splitlines_from cur s) -> exists a b, cur ++ s = a ++ l ++ b.
Proof.
  revert cur; induction s as [|c|c c' s IHs IHc] using str_ind2; intros cur.
  - simpl. destruct cur as [|x cur]; simpl; [tauto|].
    intros [<-|[]]. exists [], []. simpl. rewrite !app_nil_r. reflexivity.
  - simpl. destruct (is_linebreak c).
    + intros [<-|[]]. exists [], [c]. reflexivity.
    + destruct (cur ++ [c]) eqn:E; simpl; [tauto|].
      intros [<-|[]]. exists [], []. simpl. rewrite !app_nil_r. reflexivity.
  - change (splitlines_from cur (c :: c' :: s)) with
      (if is_linebreak c then
         if ((c =? 13) && (c' =? 10))%N
         then cur :: splitlines_from [] s
         else cur :: splitlines_from [] (c' :: s)
       else splitlines_from (cur ++ [c]) (c' :: s)).
    destruct (is_linebreak c).
    + destruct ((c =? 13) && (c' =? 10))%N; intros [<-|Hin].
      * exists [], (c :: c' :: s). reflexivity.
      * destruct (IHs _ Hin) as (a & b & E). simpl in E.
        exists (cur ++ c :: c' :: a), b.
        rewrite <- !app_assoc. simpl. rewrite E. reflexivity.
      * exists [], (c :: c' :: s). reflexivity.
      * destruct (IHc _ Hin) as (a & b & E). simpl in E.
        exists (cur ++ c :: a), b.
        rewrite <- !app_assoc. simpl. rewrite E. reflexivity.
    + intros Hin. destruct (IHc _ Hin) as (a & b & E).
      exists a, b. rewrite <- E, <- app_assoc. reflexivity.
Qed.

(** No line of [splitlines] holds a line boundary. *)
Lemma splitlines_from_no_break (s cur l : str) :
  Forall (fun c => is_linebreak c = false) cur ->
  In l (splitlines_from cur s) ->
  Forall (fun c => is_linebreak c = false) l.
Proof.
  revert cur; induction s as [|c|c c' s IHs IHc] using str_ind2; intros cur Hcur.
  - simpl. destruct cur as [|x cur]; simpl; [tauto|].
    intros [<-|[]]. exact Hcur.
  - simpl. destruct (is_linebreak c) eqn:Ec.
    + intros [<-|[]]. exact Hcur.
    + destruct (cur ++ [c]) eqn:E; simpl; [tauto|].
      intros [<-|[]]. rewrite <- E. apply Forall_app; auto.
  - change (splitlines_from cur (c :: c' :: s)) with
      (if is_linebreak c then
         if ((c =? 13) && (c' =? 10))%N
         then cur :: splitlines_from [] s
         else cur :: splitlines_from [] (c' :: s)
       else splitlines_from (cur ++ [c]) (c' :: s)).
    destruct (is_linebreak c) eqn:Ec.
    + destruct ((c =? 13) && (c' =? 10))%N; intros [<-|Hin]; auto.
      * apply (IHs []); auto.
      * apply (IHc []); auto.
    + apply IHc. apply Forall_app; auto.
Qed.

Lemma splitlines_no_break (s l : str) :
  In l (splitlines s) -> Forall (fun c => is_linebreak c = false) l.
Proof. apply splitlines_from_no_break. constructor. Qed.

End PyFacts.

(** ** The loop of the splitter *)

Module Splitter.
Import Py.

Lemma step_closing (st : locals) (l : str) :
  is_fence l = true -> in_code_block st = true ->
  step st l =
    {| cells := cells st ++ [closing_cell (current_code_type st) (code_block st)];
       in_code_block := false;
       code_block := [];
       markdown_block := markdown_block st;
       current_code_type := current_code_type st |}.
Proof. intros Hf Hin. unfold step. rewrite Hf, Hin. reflexivity. Qed.

Lemma step_opening (st : locals) (l : str) :
  is_fence l = true -> in_code_block st = false ->
  step st l =
    {| cells := finish st;
       in_code_block := true;
       code_block := code_block st;
       markdown_block := [];
       current_code_type := slice_from 3 (strip l) |}.
Proof. intros Hf Hin. unfold step, finish. rewrite Hf, Hin. reflexivity. Qed.

Lemma step_code_line (st : locals) (l : str) :
  is_fence l = false -> in_code_block st = true ->
  step st l =
    {| cells := cells st;
       in_code_block := true;
       code_block := code_block st ++ [l];
       markdown_block := markdown_block st;
       current_code_type := current_code_type st |}.
Proof. intros Hf Hin. unfold step. rewrite Hf, Hin. reflexivity. Qed.

Lemma step_markdown_line (st : locals) (l : str) :
  is_fence l = false -> in_code_block st = false ->
  step st l =
    {| cells := cells st;
       in_code_block := false;
       code_block := code_block st;
       markdown_block := markdown_block st ++ [l];
       current_code_type := current_code_type st |}.
Proof. intros Hf Hin. unfold step. rewrite Hf, Hin. reflexivity. Qed.

(** The four cases of an iteration. *)
Ltac step_cases st l :=
  let Hf := fresh "Hf" in
  let Hin := fresh "Hin" in
  destruct (is_fence l) eqn:Hf; destruct (in_code_block st) eqn:Hin;
  [ rewrite (step_closing st l Hf Hin)
  | rewrite (step_opening st l Hf Hin)
  | rewrite (step_code_line st l Hf Hin)
  | rewrite (step_markdown_line st l Hf Hin) ].

Lemma scan_app (st : locals) (a b : list str) :
  scan st (a ++ b) = scan (scan st a) b.
Proof. apply fold_left_app. Qed.

Lemma scan_cons (st : locals) (l : str) (ls : list str) :
  scan st (l :: ls) = scan (step st l) ls.
Proof. reflexivity. Qed.

Lemma consistent_initial : consistent initial.
Proof. split; [reflexivity | discriminate]. Qed.

Lemma consistent_step (st : locals) (l : str) :
  consistent st -> consistent (step st l).
Proof.
  intros [Hc Hm]. step_cases st l; split; simpl; auto; discriminate.
Qed.

Lemma consistent_scan (ls : list str) (st : locals) :
  consistent st -> consistent (scan st ls).
Proof.
  revert st; induction ls as [|l ls IH]; intros st H; [exact H|].
  rewrite scan_cons. apply IH, consistent_step, H.
Qed.

Lemma fence_count_cons (l : str) (ls : list str) :
  fence_count (l :: ls) =
    if is_fence l then S (fence_count ls) else fence_count ls.
Proof. unfold fence_count. simpl. destruct (is_fence l); reflexivity. Qed.

Lemma fence_count_app (a b : list str) :
  fence_count (a ++ b) = fence_count a + fence_count b.
Proof. unfold fence_count. rewrite filter_app, length_app. reflexivity. Qed.

(** Each fence line toggles [in_code_block]. *)
Lemma in_code_block_scan (ls : list str) (st : locals) :
  in_code_block (scan st ls) =
    xorb (in_code_block st) (Nat.odd (fence_count ls)).
Proof.
  revert st; induction ls as [|l ls IH]; intros st.
  - simpl. rewrite xorb_false_r. reflexivity.
  - rewrite scan_cons, IH, fence_count_cons.
    step_cases st l; simpl in_code_block;
      rewrite ?Nat.odd_succ, <- ?Nat.negb_odd;
      destruct (Nat.odd (fence_count ls)); reflexivity.
Qed.

Lemma paired_outside (ls : list str) :
  properly_paired ls = true -> in_code_block (scan initial ls) = false.
Proof.
  unfold properly_paired. intros H.
  rewrite in_code_block_scan, <- Nat.negb_even, H. reflexivity.
Qed.

Lemma unpaired_inside (ls : list str) :
  properly_paired ls = false -> in_code_block (scan initial ls) = true.
Proof.
  unfold properly_paired. intros H.
  rewrite in_code_block_scan, <- Nat.negb_even, H. reflexivity.
Qed.

(** Cells already emitted are never touched again. *)
Lemma step_cells_prefix (cs : list cell) (st : locals) (l : str) :
  step (set_cells (cs ++ cells st) st) l =
    set_cells (cs ++ cells (step st l)) (step st l).
Proof.
  unfold step, set_cells; simpl.
  destruct (is_fence l), (in_code_block st); simpl;
    rewrite <- ?app_assoc; try reflexivity.
  destruct (markdown_block st); rewrite <- ?app_assoc; reflexivity.
Qed.

Lemma scan_cells_prefix (cs : list cell) (ls : list str) (st : locals) :
  scan (set_cells (cs ++ cells st) st) ls =
    set_cells (cs ++ cells (scan st ls)) (scan st ls).
Proof.
  revert st; induction ls as [|l ls IH]; intros st; [reflexivity|].
  rewrite !scan_cons, step_cells_prefix, IH. reflexivity.
Qed.

Lemma finish_cells_prefix (cs : list cell) (st : locals) :
  finish (set_cells (cs ++ cells st) st) = cs ++ finish st.
Proof.
  unfold finish, set_cells; simpl.
  destruct (markdown_block st); rewrite <- ?app_assoc; reflexivity.
Qed.

(** Outside a code region the code type is dead: the next opening fence
    overwrites it before any closing fence reads it. *)
Lemma finish_scan_code_type (ls : list str) (st : locals) (t : str) :
  in_code_block st = false ->
  finish (scan (set_code_type t st) ls) = finish (scan st ls).
Proof.
  revert st; induction ls as [|l ls IH]; intros st Hin; [reflexivity|].
  rewrite !scan_cons.
  destruct (is_fence l) eqn:Hf.
  - rewrite (step_opening (set_code_type t st) l Hf Hin),
      (step_opening st l Hf Hin). reflexivity.
  - rewrite (step_markdown_line (set_code_type t st) l Hf Hin),
      (step_markdown_line st l Hf Hin).
    apply (IH {| cells := cells st;
                 in_code_block := false;
                 code_block := code_block st;
                 markdown_block := markdown_block st ++ [l];
                 current_code_type := current_code_type st |}).
    reflexivity.
Qed.

(** Continuing after a closed region is splitting the rest afresh. *)
Lemma finish_scan_restart (cs : list cell) (t : str) (ls : list str) :
  finish (scan {| cells := cs;
                  in_code_block := false;
                  code_block := [];
                  markdown_block := [];
                  current_code_type := t |} ls)
  = cs ++ split_lines ls.
Proof.
  unfold split_lines.
  rewrite <- (finish_scan_code_type ls initial t eq_refl).
  rewrite <- finish_cells_prefix, <- scan_cells_prefix.
  unfold set_cells, set_code_type; simpl. rewrite app_nil_r. reflexivity.
Qed.

Lemma scan_code_lines (body : list str) (st : locals) :
  Forall non_fence body -> in_code_block st = true ->
  scan st body =
    {| cells := cells st;
       in_code_block := true;
       code_block := code_block st ++ body;
       markdown_block := markdown_block st;
       current_code_type := current_code_type st |}.
Proof.
  revert st; induction body as [|l body IH]; intros st Hb Hin.
  - simpl. rewrite app_nil_r. destruct st; simpl in *; congruence.
  - inversion Hb as [|? ? Hl Hb']; subst.
    rewrite scan_cons, (step_code_line st l Hl Hin), IH by auto.
    simpl. rewrite <- app_assoc. reflexivity.
Qed.

Lemma scan_markdown_lines (body : list str) (st : locals) :
  Forall non_fence body -> in_code_block st = false ->
  scan st body =
    {| cells := cells st;
       in_code_block := false;
       code_block := code_block st;
       markdown_block := markdown_block st ++ body;
       current_code_type := current_code_type st |}.
Proof.
  revert st; induction body as [|l body IH]; intros st Hb Hin.
  - simpl. rewrite app_nil_r. destruct st; simpl in *; congruence.
  - inversion Hb as [|? ? Hl Hb']; subst.
    rewrite scan_cons, (step_markdown_line st l Hl Hin), IH by auto.
    simpl. rewrite <- app_assoc. reflexivity.
Qed.

(** The local variables right after an opening fence. *)
Lemma scan_to_opening (pre : list str) (opening : str) :
  properly_paired pre = true -> is_fence opening = true ->
  scan initial (pre ++ [opening]) =
    {| cells := split_lines pre;
       in_code_block := true;
       code_block := [];
       markdown_block := [];
       current_code_type := slice_from 3 (strip opening) |}.
Proof.
  intros Hp Hf. rewrite scan_app. simpl scan at 1.
  change (fold_left step [opening] (scan initial pre))
    with (step (scan initial pre) opening).
  pose proof (paired_outside pre Hp) as Hout.
  rewrite (step_opening _ _ Hf Hout).
  destruct (consistent_scan pre initial consistent_initial) as [Hc _].
  rewrite (Hc Hout). reflexivity.
Qed.

(** A code region that is closed gives one cell, between the cells of
    what precedes it and the cells of what follows it. *)
Lemma split_lines_closed_region
      (pre : list str) (opening : str) (body : list str)
      (closing : str) (post : list str) :
  properly_paired pre = true ->
  is_fence opening = true ->
  Forall non_fence body ->
  is_fence closing = true ->
  split_lines (pre ++ opening :: body ++ closing :: post) =
    split_lines pre
      ++ closing_cell (slice_from 3 (strip opening)) body
      :: split_lines post.
Proof.
  intros Hp Ho Hb Hc.
  change (pre ++ opening :: body ++ closing :: post)
    with (pre ++ [opening] ++ body ++ closing :: post).
  rewrite (app_assoc pre [opening]).
  unfold split_lines at 1.
  rewrite scan_app, (scan_to_opening pre opening Hp Ho).
  rewrite scan_app.
  rewrite (scan_code_lines body); [ | exact Hb | reflexivity ].
  rewrite scan_cons, step_closing; [ | exact Hc | reflexivity ]. simpl.
  rewrite finish_scan_restart, <- app_assoc. reflexivity.
Qed.

(** A code region that is never closed gives no cell. *)
Lemma split_lines_unterminated
      (pre : list str) (opening : str) (rest : list str) :
  properly_paired pre = true ->
  is_fence opening = true ->
  Forall non_fence rest ->
  split_lines (pre ++ opening :: rest) = split_lines pre.
Proof.
  intros Hp Ho Hr.
  change (pre ++ opening :: rest) with (pre ++ [opening] ++ rest).
  rewrite (app_assoc pre [opening]).
  unfold split_lines at 1.
  rewrite scan_app, (scan_to_opening pre opening Hp Ho).
  rewrite scan_code_lines; [ | exact Hr | reflexivity ]. reflexivity.
Qed.

End Splitter.

(** ** Properties of the splitter and of the title step *)

Import Py PyFacts Splitter.

Lemma fence_count_non_fence (ls : list str) :
  Forall non_fence ls -> fence_count ls = 0.
Proof.
  induction 1 as [|l ls Hl _ IH]; [reflexivity|].
  rewrite fence_count_cons, Hl. exact IH.
Qed.

Lemma properly_paired_app_non_fence (pre md : list str) :
  Forall non_fence md -> properly_paired (pre ++ md) = properly_paired pre.
Proof.
  intros H. unfold properly_paired.
  rewrite fence_count_app, (fence_count_non_fence md H), Nat.add_0_r.
  reflexivity.
Qed.

(** Where a region has just been closed no markdown line is pending. *)
Lemma markdown_block_after_closed (pre : list str) :
  properly_paired pre = true -> ends_closed pre = true ->
  markdown_block (scan initial pre) = [].
Proof.
  destruct pre as [|c p _] using rev_ind; [reflexivity|].
  unfold ends_closed, properly_paired.
  rewrite rev_unit, fence_count_app. intros Hp Hc.
  rewrite scan_app. change (scan (scan initial p) [c]) with (step (scan initial p) c).
  assert (Hin : in_code_block (scan initial p) = true).
  { apply unpaired_inside. unfold properly_paired.
    rewrite fence_count_cons, Hc in Hp. simpl in Hp.
    rewrite Nat.add_1_r, Nat.even_succ, <- Nat.negb_even in Hp.
    destruct (Nat.even (fence_count p)); [discriminate | reflexivity]. }
  rewrite (step_closing _ _ Hc Hin). simpl.
  apply (consistent_scan p initial consistent_initial), Hin.
Qed.

(** Markdown lines after a closed region make one cell, when there are any. *)
Lemma split_lines_trailing_markdown (pre md : list str) :
  properly_paired pre = true -> ends_closed pre = true ->
  Forall non_fence md ->
  split_lines (pre ++ md) =
    split_lines pre ++
    match md with
    | [] => []
    | _ :: _ => [new_markdown_cell (join LF md)]
    end.
Proof.
  intros Hp Hc Hmd. unfold split_lines.
  rewrite scan_app, scan_markdown_lines by auto using paired_outside.
  unfold finish at 1 2; simpl.
  rewrite (markdown_block_after_closed pre Hp Hc). simpl.
  destruct md; [rewrite app_nil_r|]; reflexivity.
Qed.

(** C4: the splitter applied to the empty string returns no cell. *)
Theorem C4_empty_input : split_content_to_cells (empty) = [].
Proof. reflexivity. Qed.

(** C9: whenever the splitter returns no cell, the title step of the
    conversion loop, which reads [nb.cells[0]], raises [IndexError] and no
    notebook is produced. *)
Theorem C9_no_cells_index_error (md_file md_content : str) :
  split_content_to_cells md_content = [] ->
  notebook_cells md_file md_content = Raise IndexError.
Proof.
  intros H. unfold notebook_cells, add_title. rewrite H. reflexivity.
Qed.

Lemma C9_no_cells_index_error_witness :
  split_content_to_cells (py "```python" ++ LF ++ py "x = 1") = [] /\
  notebook_cells (py "2_1_creating_basic_models.md")
                 (py "```python" ++ LF ++ py "x = 1")
    = Raise IndexError.
Proof.
  split; [reflexivity | apply C9_no_cells_index_error; reflexivity].
Defined.

(** The title step raises only then: with a first cell it returns cells. *)
Lemma notebook_cells_ok (md_file md_content : str) :
  split_content_to_cells md_content <> [] ->
  exists cs, notebook_cells md_file md_content = Ok cs.
Proof.
  unfold notebook_cells, add_title.
  destruct (split_content_to_cells md_content) as [|c cs]; [congruence|].
  intros _. unfold getitem; simpl nth_error; cbv iota.
  destruct (negb (startswith (source c) (py "# "))); eauto.
Qed.

(** An input that is nothing but an unterminated code region gives no cell. *)
Lemma only_unterminated_region (md_content opening : str) (rest : list str) :
  splitlines md_content = opening :: rest ->
  is_fence opening = true -> Forall non_fence rest ->
  split_content_to_cells md_content = [].
Proof.
  intros E Ho Hr. unfold split_content_to_cells. rewrite E.
  apply (split_lines_unterminated [] opening rest eq_refl Ho Hr).
Qed.

(** C5: when the input has an opening fence that is never closed, the
    markdown lines before that fence become a markdown cell, and the lines
    after it are dropped: the result is the cells of what precedes the
    markdown lines followed by that one cell, and the splitter, a total
    function, raises nothing. *)
Theorem C5_unterminated_region
        (md_content : str) (pre md : list str) (opening : str)
        (rest : list str) :
  splitlines md_content = pre ++ md ++ opening :: rest ->
  properly_paired pre = true ->
  ends_closed pre = true ->
  Forall non_fence md ->
  is_fence opening = true ->
  Forall non_fence rest ->
  split_content_to_cells md_content =
    split_lines pre ++
    match md with
    | [] => []
    | _ :: _ => [new_markdown_cell (join LF md)]
    end.
Proof.
  intros E Hp Hc Hmd Ho Hr. unfold split_content_to_cells.
  rewrite E, app_assoc.
  rewrite split_lines_unterminated; auto.
  - apply split_lines_trailing_markdown; assumption.
  - rewrite properly_paired_app_non_fence; assumption.
Qed.

Lemma C5_unterminated_region_witness :
  split_content_to_cells
    (py "Intro" ++ LF ++ py "text" ++ LF ++ py "```python" ++ LF ++ py "x = 1")
  = [new_markdown_cell (py "Intro" ++ LF ++ py "text")].
Proof.
  apply (C5_unterminated_region
           (py "Intro" ++ LF ++ py "text" ++ LF ++ py "```python" ++ LF ++ py "x = 1")
           [] [py "Intro"; py "text"] (py "```python") [py "x = 1"]);
    try reflexivity; repeat constructor.
Defined.

(** C7, as the specification states it, fails: the cell emitted for a
    region does not hold the text captured at its opening fence.  The cell
    of a region opened by [```ruby] names the kernel [bash], the cell of a
    region opened by [```python] names none, and regions opened by
    [```ruby] and by [```sh] give the very same cell. *)
Lemma C7_tag_not_in_cell :
  let ruby := py "```ruby" ++ LF ++ py "run" ++ LF ++ py "```" in
  let sh := py "```sh" ++ LF ++ py "run" ++ LF ++ py "```" in
  let python := py "```python" ++ LF ++ py "run" ++ LF ++ py "```" in
  slice_from 3 (strip (py "```ruby")) = py "ruby" /\
  split_content_to_cells ruby = [new_code_cell (py "run") bash_metadata] /\
  ~ carries_tag (new_code_cell (py "run") bash_metadata) (py "ruby") /\
  split_content_to_cells sh = split_content_to_cells ruby /\
  slice_from 3 (strip (py "```python")) = py "python" /\
  split_content_to_cells python = [new_code_cell (py "run") []] /\
  ~ carries_tag (new_code_cell (py "run") []) (py "python").
Proof.
  cbv zeta. repeat split; try reflexivity;
    unfold carries_tag; vm_compute; discriminate.
Qed.

(** C7 (amended): the text after the three backticks of the stripped
    opening fence line decides the cell of a closed code region, and only
    through the test [== "python"]: the cell is the plain code cell of the
    region's lines when the text is exactly [python], and the code cell
    with the [bash] kernel otherwise; the text itself is not kept.  The
    closing fence line is never read for it: any other fence line in its
    place gives the same cells, for this region and for all later ones. *)
Theorem C7_code_type_from_opening_fence
        (md_content : str) (pre : list str) (opening : str)
        (body : list str) (closing : str) (post : list str) :
  splitlines md_content = pre ++ opening :: body ++ closing :: post ->
  properly_paired pre = true ->
  is_fence opening = true ->
  Forall non_fence body ->
  is_fence closing = true ->
  split_content_to_cells md_content =
    split_lines pre
      ++ (if eqb (slice_from 3 (strip opening)) (py "python")
          then {| kind := code; source := join LF body; metadata := [] |}
          else {| kind := code; source := join LF body;
                  metadata := [(py "kernelspec", [(py "name", py "bash")])] |})
      :: split_lines post
  /\ forall closing' : str,
      is_fence closing' = true ->
      split_lines (pre ++ opening :: body ++ closing' :: post) =
        split_content_to_cells md_content.
Proof.
  intros E Hp Ho Hb Hc. unfold split_content_to_cells. rewrite E.
  rewrite (split_lines_closed_region pre opening body closing post Hp Ho Hb Hc).
  split; [reflexivity|].
  intros closing' Hc'.
  apply (split_lines_closed_region pre opening body closing' post Hp Ho Hb Hc').
Qed.

Lemma C7_code_type_from_opening_fence_witness :
  let md_content :=
    py "```bash" ++ LF ++ py "echo hi" ++ LF ++ py "```python" ++ LF ++
    py "```" ++ LF ++ py "x = 1" ++ LF ++ py "```" in
  split_content_to_cells md_content =
    split_lines []
      ++ (if eqb (slice_from 3 (strip (py "```bash"))) (py "python")
          then {| kind := code; source := join LF [py "echo hi"];
                  metadata := [] |}
          else {| kind := code; source := join LF [py "echo hi"];
                  metadata := [(py "kernelspec", [(py "name", py "bash")])] |})
      :: split_lines [py "```"; py "x = 1"; py "```"]
  /\ forall closing' : str,
      is_fence closing' = true ->
      split_lines ([] ++ py "```bash" :: [py "echo hi"] ++ closing'
                      :: [py "```"; py "x = 1"; py "```"]) =
        split_content_to_cells md_content.
Proof.
  intros md_content.
  apply (C7_code_type_from_opening_fence
           md_content [] (py "```bash") [py "echo hi"] (py "```python")
           [py "```"; py "x = 1"; py "```"]);
    try reflexivity; repeat constructor.
Defined.

(** C1, as the specification states it, fails: the cell of a region opened
    by [```ruby] does not carry [ruby] as its kernel; the splitter gives
    every region whose code type is not [python] the kernel name [bash]. *)
Lemma C1_tag_not_carried :
  let md_content := py "```ruby" ++ LF ++ py "puts 1" ++ LF ++ py "```" in
  let emitted := new_code_cell (py "puts 1") bash_metadata in
  slice_from 3 (strip (py "```ruby")) = py "ruby" /\
  split_content_to_cells md_content = [emitted] /\
  ~ carries_tag emitted (py "ruby") /\
  carries_tag emitted (py "bash").
Proof.
  cbv zeta. repeat split; try reflexivity.
  unfold carries_tag. vm_compute. discriminate.
Qed.

(** The text after the backticks is taken as it stands, not stripped again:
    a fence [``` python] does not open a [python] region. *)
Example code_type_not_stripped :
  slice_from 3 (strip (py "``` python")) = py " python" /\
  split_content_to_cells (py "``` python" ++ LF ++ py "x = 1" ++ LF ++ py "```")
  = [new_code_cell (py "x = 1") bash_metadata].
Proof. split; reflexivity. Qed.

(** The same for the empty tag, which the specification names. *)
Example empty_tag_gets_bash :
  split_content_to_cells (py "```" ++ LF ++ py "ls" ++ LF ++ py "```")
  = [new_code_cell (py "ls") bash_metadata].
Proof. reflexivity. Qed.

Lemma closing_cell_python (block : list str) :
  closing_cell (py "python") block = new_code_cell (join LF block) [].
Proof. reflexivity. Qed.

Lemma closing_cell_other (code_type : str) (block : list str) :
  code_type <> py "python" ->
  closing_cell code_type block = new_code_cell (join LF block) bash_metadata.
Proof.
  intros H. unfold closing_cell.
  apply eqb_neq in H. rewrite H. reflexivity.
Qed.

Lemma nth_error_middle {A : Type} (a : list A) (x : A) (b : list A) :
  nth_error (a ++ x :: b) (length a) = Some x.
Proof. induction a; simpl; auto. Qed.

(** C1 (amended): the cell emitted for a closed code region is a code cell
    with the region's lines; it has no metadata when the text after the
    opening fence's backticks is exactly [python], and for any other text,
    the empty one too, its metadata is the fixed
    [{"kernelspec": {"name": "bash"}}], whatever the tag. *)
Theorem C1_code_cell_kernel
        (md_content : str) (pre : list str) (opening : str)
        (body : list str) (closing : str) (post : list str) :
  splitlines md_content = pre ++ opening :: body ++ closing :: post ->
  properly_paired pre = true ->
  is_fence opening = true ->
  Forall non_fence body ->
  is_fence closing = true ->
  exists c : cell,
    nth_error (split_content_to_cells md_content) (length (split_lines pre))
      = Some c /\
    kind c = code /\
    source c = join LF body /\
    (slice_from 3 (strip opening) = py "python" -> metadata c = []) /\
    (slice_from 3 (strip opening) <> py "python" ->
       metadata c = bash_metadata /\ kernelspec_name c = Some (py "bash")).
Proof.
  intros E Hp Ho Hb Hc. unfold split_content_to_cells. rewrite E.
  rewrite (split_lines_closed_region pre opening body closing post Hp Ho Hb Hc).
  exists (closing_cell (slice_from 3 (strip opening)) body).
  split; [apply nth_error_middle|].
  unfold closing_cell.
  destruct (eqb (slice_from 3 (strip opening)) (py "python")) eqn:Et.
  - apply eqb_eq in Et.
    repeat split; intros; try reflexivity; contradiction.
  - apply eqb_neq in Et.
    repeat split; intros; try reflexivity; contradiction.
Qed.

Lemma C1_code_cell_kernel_witness :
  exists c : cell,
    nth_error (split_content_to_cells
                 (py "Run:" ++ LF ++ py "```sh" ++ LF ++ py "ls" ++ LF ++
                  py "```" ++ LF ++ py "Done."))
              (length (split_lines [py "Run:"]))
      = Some c /\
    kind c = code /\
    source c = join LF [py "ls"] /\
    (slice_from 3 (strip (py "```sh")) = py "python" -> metadata c = []) /\
    (slice_from 3 (strip (py "```sh")) <> py "python" ->
       metadata c = bash_metadata /\ kernelspec_name c = Some (py "bash")).
Proof.
  apply (C1_code_cell_kernel
           (py "Run:" ++ LF ++ py "```sh" ++ LF ++ py "ls" ++ LF ++
            py "```" ++ LF ++ py "Done.")
           [py "Run:"] (py "```sh") [py "ls"] (py "```") [py "Done."]);
    try reflexivity; repeat constructor.
Defined.

(** C2, as the specification states it, fails: an opening fence directly
    followed by its closing fence does give a cell, a code cell whose source
    is empty. *)
Lemma C2_empty_region_emits_cell :
  splitlines (py "```python" ++ LF ++ py "```") = [py "```python"; py "```"] /\
  split_content_to_cells (py "```python" ++ LF ++ py "```")
    = [new_code_cell (empty) []] /\
  split_content_to_cells (py "```python" ++ LF ++ py "```") <> [].
Proof. repeat split; try reflexivity. vm_compute. discriminate. Qed.

(** C2 (amended): an empty markdown accumulator is never flushed, neither
    at an opening fence nor at the end of the input; a closing fence always
    emits a code cell, so an opening fence directly followed by its closing
    fence gives one code cell with an empty source. *)
Theorem C2_empty_accumulators :
  (forall (st : locals) (l : str),
      is_fence l = true -> in_code_block st = false ->
      markdown_block st = [] ->
      cells (step st l) = cells st) /\
  (forall st : locals, markdown_block st = [] -> finish st = cells st) /\
  (forall (st : locals) (l : str),
      is_fence l = true -> in_code_block st = true ->
      cells (step st l) =
        cells st ++ [closing_cell (current_code_type st) (code_block st)]) /\
  (forall (md_content : str) (pre : list str) (opening closing : str)
          (post : list str),
      splitlines md_content = pre ++ opening :: closing :: post ->
      properly_paired pre = true ->
      is_fence opening = true ->
      is_fence closing = true ->
      split_content_to_cells md_content =
        split_lines pre
          ++ closing_cell (slice_from 3 (strip opening)) []
          :: split_lines post
      /\ kind (closing_cell (slice_from 3 (strip opening)) []) = code
      /\ source (closing_cell (slice_from 3 (strip opening)) []) = empty).
Proof.
  repeat apply conj.
  - intros st l Hf Hin Hm. rewrite (step_opening st l Hf Hin).
    unfold finish; simpl. rewrite Hm. reflexivity.
  - intros st Hm. unfold finish. rewrite Hm. reflexivity.
  - intros st l Hf Hin. rewrite (step_closing st l Hf Hin). reflexivity.
  - intros md_content pre opening closing post E Hp Ho Hc.
    unfold split_content_to_cells. rewrite E.
    change (pre ++ opening :: closing :: post)
      with (pre ++ opening :: [] ++ closing :: post).
    rewrite (split_lines_closed_region pre opening [] closing post Hp Ho
               (Forall_nil _) Hc).
    repeat split; unfold closing_cell;
      destruct (eqb (slice_from 3 (strip opening)) (py "python"));
      reflexivity.
Qed.

Lemma C2_empty_accumulators_witness :
  split_content_to_cells (py "```" ++ LF ++ py "```" ++ LF ++ py "text") =
    split_lines []
      ++ closing_cell (slice_from 3 (strip (py "```"))) []
      :: split_lines [py "text"]
  /\ kind (closing_cell (slice_from 3 (strip (py "```"))) []) = code
  /\ source (closing_cell (slice_from 3 (strip (py "```"))) []) = empty.
Proof.
  destruct C2_empty_accumulators as (_ & _ & _ & H).
  apply (H (py "```" ++ LF ++ py "```" ++ LF ++ py "text")
           [] (py "```") (py "```") [py "text"]);
    reflexivity.
Defined.

(** The title step as the script has it: the test reads the source of the
    first cell and never its kind. *)
Lemma add_title_first_cell (md_file : str) (c : cell) (cs : list cell) :
  add_title md_file (c :: cs) =
    if startswith (source c) (py "# ")
    then Ok (c :: cs)
    else Ok (new_markdown_cell (title_text md_file) :: c :: cs).
Proof.
  unfold add_title, getitem; simpl nth_error; cbv iota.
  destruct (startswith (source c) (py "# ")); reflexivity.
Qed.

(** C6 does not hold of the script: when the first cell is a code cell
    whose source begins with [# ] (a Python comment), no title cell is added,
    although the first line of the content is no level-1 heading. *)
Theorem C6_code_cell_comment_blocks_title :
  notebook_cells (py "2_1_creating_basic_models.md")
                 (py "```python" ++ LF ++ py "# setup" ++ LF ++
                  py "x = 1" ++ LF ++ py "```")
  = Ok [new_code_cell (py "# setup" ++ LF ++ py "x = 1") []].
Proof. reflexivity. Qed.

(** With a first code cell that does not begin with [# ] the title is added. *)
Example title_added_before_code :
  notebook_cells (py "2_1_creating_basic_models.md")
                 (py "```python" ++ LF ++ py "x = 1" ++ LF ++ py "```")
  = Ok [new_markdown_cell (py "# 2 1 Creating Basic Models");
        new_code_cell (py "x = 1") []].
Proof. reflexivity. Qed.

(** *** No two markdown cells in a row *)

Lemma ends_with_markdown_snoc (cs : list cell) (c : cell) :
  ends_with_markdown (cs ++ [c]) = is_markdown c.
Proof.
  induction cs as [|a cs IH]; [reflexivity|].
  simpl. destruct (cs ++ [c]) eqn:E; [destruct cs; discriminate | exact IH].
Qed.

Lemma no_adjacent_markdown_snoc (cs : list cell) (c : cell) :
  no_adjacent_markdown (cs ++ [c]) =
    no_adjacent_markdown cs && negb (ends_with_markdown cs && is_markdown c).
Proof.
  induction cs as [|a cs IH]; [reflexivity|].
  destruct cs as [|b cs].
  - simpl. rewrite andb_true_r. reflexivity.
  - change (no_adjacent_markdown ((a :: b :: cs) ++ [c]))
      with (negb (is_markdown a && is_markdown b)
            && no_adjacent_markdown ((b :: cs) ++ [c])).
    rewrite IH.
    change (no_adjacent_markdown (a :: b :: cs))
      with (negb (is_markdown a && is_markdown b)
            && no_adjacent_markdown (b :: cs)).
    change (ends_with_markdown (a :: b :: cs))
      with (ends_with_markdown (b :: cs)).
    rewrite andb_assoc. reflexivity.
Qed.

Lemma is_markdown_closing_cell (t : str) (block : list str) :
  is_markdown (closing_cell t block) = false.
Proof. unfold closing_cell. destruct (eqb t (py "python")); reflexivity. Qed.

Lemma tidy_initial : tidy initial.
Proof. split; reflexivity. Qed.

Lemma tidy_finish (st : locals) :
  tidy st -> in_code_block st = false ->
  no_adjacent_markdown (finish st) = true.
Proof.
  intros [Hn He] Hin. unfold finish.
  destruct (markdown_block st); [exact Hn|].
  rewrite no_adjacent_markdown_snoc, Hn, (He Hin). reflexivity.
Qed.

Lemma tidy_step (st : locals) (l : str) : tidy st -> tidy (step st l).
Proof.
  intros Ht. pose proof Ht as [Hn He].
  step_cases st l; split; simpl; auto; try discriminate.
  - rewrite no_adjacent_markdown_snoc, Hn, is_markdown_closing_cell.
    rewrite andb_false_r. reflexivity.
  - intros _. rewrite ends_with_markdown_snoc. apply is_markdown_closing_cell.
  - apply (tidy_finish st Ht Hin).
Qed.

Lemma tidy_scan (ls : list str) (st : locals) : tidy st -> tidy (scan st ls).
Proof.
  revert st; induction ls as [|l ls IH]; intros st H; [exact H|].
  rewrite scan_cons. apply IH, tidy_step, H.
Qed.

Lemma no_adjacent_markdown_split_lines (ls : list str) :
  no_adjacent_markdown (split_lines ls) = true.
Proof.
  unfold split_lines.
  pose proof (tidy_scan ls initial tidy_initial) as Ht.
  destruct (in_code_block (scan initial ls)) eqn:Hin.
  - destruct (consistent_scan ls initial consistent_initial) as [_ Hm].
    unfold finish. rewrite (Hm Hin). apply Ht.
  - apply tidy_finish; assumption.
Qed.

Lemma no_adjacent_markdown_nth (cs : list cell) (i : nat) (c1 c2 : cell) :
  no_adjacent_markdown cs = true ->
  nth_error cs i = Some c1 -> nth_error cs (S i) = Some c2 ->
  kind c1 = markdown -> kind c2 = code.
Proof.
  revert i; induction cs as [|a cs IH]; intros i Hn H1 H2 Hk.
  - destruct i; discriminate.
  - destruct cs as [|b cs]; [destruct i; discriminate|].
    change (no_adjacent_markdown (a :: b :: cs))
      with (negb (is_markdown a && is_markdown b)
            && no_adjacent_markdown (b :: cs)) in Hn.
    apply andb_true_iff in Hn. destruct Hn as [Hab Hn].
    destruct i as [|i].
    + simpl in H1, H2. injection H1 as ->. injection H2 as ->.
      unfold is_markdown in Hab. rewrite Hk in Hab.
      destruct (kind c2); [discriminate | reflexivity].
    + apply (IH i Hn H1 H2 Hk).
Qed.

(** C10: in the cells the splitter returns no two markdown cells are next
    to each other: the cell right after a markdown cell is a code cell. *)
Theorem C10_no_adjacent_markdown
        (md_content : str) (i : nat) (c1 c2 : cell) :
  nth_error (split_content_to_cells md_content) i = Some c1 ->
  nth_error (split_content_to_cells md_content) (S i) = Some c2 ->
  kind c1 = markdown ->
  kind c2 = code.
Proof.
  apply no_adjacent_markdown_nth, no_adjacent_markdown_split_lines.
Qed.

Lemma C10_no_adjacent_markdown_witness :
  let md_content := py "a" ++ LF ++ py "```" ++ LF ++ py "```" ++ LF ++ py "b" in
  nth_error (split_content_to_cells md_content) 0
    = Some (new_markdown_cell (py "a")) /\
  nth_error (split_content_to_cells md_content) 1
    = Some (new_code_cell empty bash_metadata) /\
  kind (new_code_cell empty bash_metadata) = code.
Proof.
  intros md_content.
  split; [reflexivity|]. split; [reflexivity|].
  apply (C10_no_adjacent_markdown
           md_content 0 (new_markdown_cell (py "a"))
           (new_code_cell empty bash_metadata));
    reflexivity.
Defined.

(** *** Texts without fences *)

Lemma join_cons (sep p : str) (ps : list str) :
  ps <> [] -> join sep (p :: ps) = p ++ sep ++ join sep ps.
Proof. destruct ps; [congruence | reflexivity]. Qed.

(** Where LF is the only line boundary, joining the lines with LF gives the
    text back, up to its final newline. *)
Lemma join_splitlines_from (s cur : str) :
  lf_only s = true -> cur ++ s <> [] ->
  equal_up_to_trailing_newline (cur ++ s) (join LF (splitlines_from cur s)).
Proof.
  unfold equal_up_to_trailing_newline.
  revert cur; induction s as [|c r IH]; intros cur Hlf Hne.
  - rewrite app_nil_r in *. left. destruct cur; [congruence | reflexivity].
  - simpl in Hlf. apply andb_true_iff in Hlf. destruct Hlf as [Hc Hr].
    simpl splitlines_from. destruct (is_linebreak c) eqn:Eb.
    + simpl in Hc. apply N.eqb_eq in Hc. subst c.
      destruct r as [|c' r'].
      * right. reflexivity.
      * change ((10 =? 13)%N && (c' =? 10)%N) with false. cbv iota.
        assert (Hx : splitlines_from [] (c' :: r') <> [])
          by (rewrite splitlines_from_nil; intros [_ H]; discriminate).
        rewrite (join_cons LF cur _ Hx).
        destruct (IH [] Hr) as [E|E]; [discriminate | |];
          change ([] ++ c' :: r') with (c' :: r') in E.
        -- left. rewrite E. reflexivity.
        -- right. rewrite <- !app_assoc, E. reflexivity.
    + specialize (IH (cur ++ [c]) Hr).
      rewrite <- app_assoc in IH. apply IH.
      destruct cur; discriminate.
Qed.

(** A text without three backticks in a row has no fence line. *)
Lemma no_triple_backtick_lines (s : str) :
  no_triple_backtick s = true -> Forall non_fence (splitlines s).
Proof.
  unfold no_triple_backtick. intros H. apply negb_true_iff in H.
  apply Forall_forall. intros l Hl. unfold non_fence.
  destruct (is_fence l) eqn:Hf; [|reflexivity].
  unfold is_fence in Hf. apply startswith_app in Hf. destruct Hf as [r Hr].
  destruct (strip_infix l) as (a & b & El).
  destruct (splitlines_from_infix s [] l Hl) as (a' & b' & Es).
  simpl in Es. rewrite Hr in El. rewrite El in Es.
  rewrite <- (contains_infix fence (a' ++ a) (r ++ b ++ b')), <- H.
  f_equal. rewrite Es, <- !app_assoc. reflexivity.
Qed.

(** Lines without a fence make one markdown cell, when there are any. *)
Lemma split_lines_all_markdown (ls : list str) :
  Forall non_fence ls ->
  split_lines ls =
    match ls with
    | [] => []
    | _ :: _ => [new_markdown_cell (join LF ls)]
    end.
Proof.
  intros H. unfold split_lines.
  rewrite (scan_markdown_lines ls initial H eq_refl).
  unfold finish; simpl. destruct ls; reflexivity.
Qed.

(** C3, as the specification states it, fails: the empty text holds no
    triple backtick, and the splitter returns no cell for it, not one
    markdown cell. *)
Lemma C3_empty_text_no_cell :
  no_triple_backtick (empty) = true /\
  split_content_to_cells (empty) = [] /\
  forall t : str, split_content_to_cells (empty) <> [new_markdown_cell t].
Proof. repeat split. intros t. vm_compute. discriminate. Qed.

(** A line boundary other than LF is not kept either: it comes back as LF. *)
Example carriage_return_becomes_newline :
  split_content_to_cells (py "a" ++ [13%N] ++ py "b")
  = [new_markdown_cell (py "a" ++ LF ++ py "b")].
Proof. reflexivity. Qed.

(** C3 (amended): for every non-empty text with no triple backtick the
    splitter returns exactly one cell, a markdown cell whose source is the
    lines of the text joined by LF, and so no code cell; when LF is the only
    line boundary in the text, that source is the text itself up to its
    final newline. *)
Theorem C3_text_without_fence (md_content : str) :
  md_content <> [] ->
  no_triple_backtick md_content = true ->
  split_content_to_cells md_content
    = [new_markdown_cell (join LF (splitlines md_content))]
  /\ Forall (fun c => kind c = markdown) (split_content_to_cells md_content)
  /\ (lf_only md_content = true ->
      equal_up_to_trailing_newline
        md_content (source (new_markdown_cell (join LF (splitlines md_content))))).
Proof.
  intros Hne Hnb.
  assert (E : split_content_to_cells md_content
              = [new_markdown_cell (join LF (splitlines md_content))]).
  { unfold split_content_to_cells.
    rewrite (split_lines_all_markdown _ (no_triple_backtick_lines _ Hnb)).
    destruct (splitlines md_content) eqn:El; [|reflexivity].
    apply splitlines_nil in El. contradiction. }
  rewrite E. repeat split.
  - repeat constructor.
  - intros Hlf. apply (join_splitlines_from md_content [] Hlf Hne).
Qed.

Lemma C3_text_without_fence_witness :
  split_content_to_cells (py "# Title" ++ LF ++ py "Some `text`." ++ LF)
    = [new_markdown_cell
         (join LF (splitlines (py "# Title" ++ LF ++ py "Some `text`." ++ LF)))]
  /\ Forall (fun c => kind c = markdown)
            (split_content_to_cells (py "# Title" ++ LF ++ py "Some `text`." ++ LF))
  /\ (lf_only (py "# Title" ++ LF ++ py "Some `text`." ++ LF) = true ->
      equal_up_to_trailing_newline
        (py "# Title" ++ LF ++ py "Some `text`." ++ LF)
        (source (new_markdown_cell
           (join LF (splitlines (py "# Title" ++ LF ++ py "Some `text`." ++ LF)))))).
Proof.
  apply (C3_text_without_fence (py "# Title" ++ LF ++ py "Some `text`." ++ LF));
    [vm_compute; discriminate | reflexivity].
Defined.

(** *** What the cells keep of the text *)

Lemma split_from_no_break (a cur s : str) :
  no_break a -> split_from 10%N cur (a ++ s) = split_from 10%N (cur ++ a) s.
Proof.
  intros Ha. revert cur.
  induction Ha as [|x a Hx _ IH]; intros cur.
  - rewrite app_nil_r. reflexivity.
  - simpl. destruct (N.eqb_spec x 10%N) as [->|_]; [discriminate|].
    rewrite IH, <- app_assoc. reflexivity.
Qed.

(** Splitting at LF the lines joined by LF gives the lines back, when
    there is at least one. *)
Lemma split_join (ls : list str) :
  ls <> [] -> Forall no_break ls -> split 10%N (join LF ls) = ls.
Proof.
  unfold split. intros Hne H.
  induction H as [|p ls Hp Hls IH]; [congruence|].
  destruct ls as [|q ls].
  - simpl. rewrite <- (app_nil_r p) at 1.
    rewrite (split_from_no_break p [] [] Hp). reflexivity.
  - rewrite join_cons by discriminate.
    rewrite (split_from_no_break p [] _ Hp).
    change (split_from 10%N ([] ++ p) (LF ++ join LF (q :: ls)))
      with (p :: split_from 10%N [] (join LF (q :: ls))).
    rewrite IH by discriminate. reflexivity.
Qed.

Lemma content_app (a b : list cell) : content (a ++ b) = content a ++ content b.
Proof. apply flat_map_app. Qed.

Lemma source_closing_cell (t : str) (block : list str) :
  source (closing_cell t block) = join LF block.
Proof. unfold closing_cell. destruct (eqb t (py "python")); reflexivity. Qed.

Lemma content_closing_cell (t : str) (block : list str) :
  block <> [] -> Forall no_break block ->
  content [closing_cell t block] = block.
Proof.
  intros Hne Hb. unfold content, lines_of_cell; simpl.
  rewrite source_closing_cell, app_nil_r. apply split_join; assumption.
Qed.

Lemma content_finish (st : locals) :
  Forall no_break (markdown_block st) ->
  content (finish st) = content (cells st) ++ markdown_block st.
Proof.
  intros Hm. unfold finish.
  destruct (markdown_block st) as [|m ms] eqn:E.
  - rewrite app_nil_r. reflexivity.
  - rewrite content_app. f_equal.
    change (content [new_markdown_cell (join LF (m :: ms))])
      with (split 10%N (join LF (m :: ms)) ++ []).
    rewrite app_nil_r.
    apply split_join; [discriminate | assumption].
Qed.

Lemma clean_step (st : locals) (l : str) :
  no_break l -> clean st -> clean (step st l).
Proof.
  intros Hl [Hc Hm]. step_cases st l; split; simpl; auto.
  - apply Forall_app; auto.
  - apply Forall_app; auto.
Qed.

(** One iteration keeps every line that is not a fence line, provided it
    does not close a region that has no line. *)
Lemma content_step (st : locals) (l : str) :
  clean st -> consistent st ->
  (is_fence l = true -> in_code_block st = true -> code_block st <> []) ->
  content (cells (step st l)) ++ pending (step st l) =
    content (cells st) ++ pending st ++ non_fence_lines [l].
Proof.
  intros Hclean Hcons Hne. pose proof Hclean as [Hc Hm].
  pose proof Hcons as [Hout Hins].
  unfold pending, non_fence_lines. simpl filter.
  step_cases st l; simpl.
  - rewrite content_app, content_closing_cell by auto.
    rewrite (Hins eq_refl), !app_nil_r. reflexivity.
  - rewrite content_finish by assumption.
    rewrite (Hout eq_refl), !app_nil_r. reflexivity.
  - rewrite (Hins eq_refl), !app_nil_r. reflexivity.
  - rewrite (Hout eq_refl). reflexivity.
Qed.

Lemma non_fence_lines_cons (l : str) (ls : list str) :
  non_fence_lines (l :: ls) = non_fence_lines [l] ++ non_fence_lines ls.
Proof. unfold non_fence_lines. simpl. destruct (is_fence l); reflexivity. Qed.

(** The loop keeps every line that is not a fence line, in cells or
    pending, when no code region of the lines is empty. *)
Lemma content_scan (ls : list str) (st : locals) (fresh : bool) :
  Forall no_break ls -> clean st -> consistent st ->
  (in_code_block st = true -> fresh = false -> code_block st <> []) ->
  empty_region (in_code_block st) fresh ls = false ->
  content (cells (scan st ls)) ++ pending (scan st ls) =
    content (cells st) ++ pending st ++ non_fence_lines ls
  /\ clean (scan st ls).
Proof.
  revert st fresh; induction ls as [|l ls IH];
    intros st fresh Hls Hclean Hcons Hfresh He.
  - simpl. unfold non_fence_lines. simpl. rewrite app_nil_r. auto.
  - inversion Hls as [|? ? Hl Hls']; subst.
    rewrite scan_cons, non_fence_lines_cons.
    assert (Hstep : is_fence l = true -> in_code_block st = true ->
                    code_block st <> []).
    { intros Hf Hin. apply (Hfresh Hin).
      simpl in He. rewrite Hf, Hin in He.
      apply orb_false_iff in He. apply He. }
    pose proof (content_step st l Hclean Hcons Hstep) as Es.
    pose proof (clean_step st l Hl Hclean) as Hclean'.
    pose proof (consistent_step st l Hcons) as Hcons'.
    simpl in He.
    assert (IH' : content (cells (scan (step st l) ls))
                    ++ pending (scan (step st l) ls)
                  = content (cells (step st l)) ++ pending (step st l)
                      ++ non_fence_lines ls
                  /\ clean (scan (step st l) ls)).
    { clear Es Hstep. revert He Hclean' Hcons'.
      step_cases st l; intros He Hclean' Hcons'.
      - apply orb_false_iff in He. destruct He as [_ He].
        apply (IH _ false); auto; simpl; discriminate.
      - apply (IH _ true); auto; simpl; discriminate.
      - apply (IH _ false); auto; simpl.
        intros _ _. destruct (code_block st); discriminate.
      - apply (IH _ false); auto; simpl; discriminate. }
    destruct IH' as [E Hc]. split; [|exact Hc].
    rewrite E, app_assoc, Es, <- !app_assoc. reflexivity.
Qed.

(** C8, as the specification states it, fails twice over.  With a fence
    line put back only between a markdown block and a code block, the
    fences around a code block at the start or the end of the text are not
    restored: [```], [a], [```] comes back as the one line [a].  And a code
    region that is empty is stored as the text of one empty line: [```],
    [```] comes back with an empty line that the input does not have, be
    the fences put back between blocks or around every code block. *)
Lemma C8_reconstruction_fails :
  let leading := py "```" ++ LF ++ py "a" ++ LF ++ py "```" in
  let hollow := py "```" ++ LF ++ py "```" in
  (properly_paired (splitlines leading) = true /\
   has_empty_region (splitlines leading) = false /\
   reconstruct (split_content_to_cells leading) = [py "a"] /\
   reconstruct (split_content_to_cells leading)
     <> with_generic_fences (splitlines leading)) /\
  (properly_paired (splitlines hollow) = true /\
   split_content_to_cells hollow = [new_code_cell (empty) bash_metadata] /\
   reconstruct (split_content_to_cells hollow) = [empty] /\
   reconstruct (split_content_to_cells hollow)
     <> with_generic_fences (splitlines hollow) /\
   non_fence_lines (reconstruct (split_content_to_cells hollow))
     <> non_fence_lines (splitlines hollow) /\
   rebuild (split_content_to_cells hollow)
     <> with_generic_fences (splitlines hollow)).
Proof.
  cbv zeta. repeat split; try reflexivity; vm_compute; discriminate.
Qed.

(** Fences that do not stand between a markdown cell and a code cell are
    not put back. *)
Example leading_fence_not_restored :
  let md_content := py "```" ++ LF ++ py "a" ++ LF ++ py "```" in
  reconstruct (split_content_to_cells md_content) = [py "a"] /\
  with_generic_fences (splitlines md_content) = [py "```"; py "a"; py "```"].
Proof. split; reflexivity. Qed.

(** No reconstruction at all can give the lines back: two inputs with
    paired fences and different lines have the same cells. *)
Example same_cells_different_lines :
  let a := py "```" ++ LF ++ py "```" in
  let b := py "```" ++ LF ++ LF ++ py "```" in
  properly_paired (splitlines a) = true /\
  properly_paired (splitlines b) = true /\
  split_content_to_cells a = split_content_to_cells b /\
  non_fence_lines (splitlines a) <> non_fence_lines (splitlines b).
Proof.
  cbv zeta. repeat split; try reflexivity. vm_compute. discriminate.
Qed.

(** For every input whose fences are properly paired and none of whose
    code regions is empty, the lines stored in the cells, cell after cell,
    are exactly the lines of the input that are not fence lines. *)
Lemma cells_keep_lines (md_content : str) :
  properly_paired (splitlines md_content) = true ->
  has_empty_region (splitlines md_content) = false ->
  content (split_content_to_cells md_content)
    = non_fence_lines (splitlines md_content).
Proof.
  intros Hp He. unfold split_content_to_cells, split_lines.
  assert (Hls : Forall no_break (splitlines md_content))
    by (apply Forall_forall; intros l; apply splitlines_no_break).
  assert (Hclean : clean initial) by (split; constructor).
  destruct (content_scan (splitlines md_content) initial false
              Hls Hclean consistent_initial) as [E [_ Hm]];
    [discriminate | exact He |].
  rewrite content_finish by exact Hm.
  pose proof (paired_outside _ Hp) as Hout.
  destruct (consistent_scan (splitlines md_content) initial consistent_initial)
    as [Hc _].
  unfold pending in E. rewrite (Hc Hout) in E. exact E.
Qed.

Lemma rebuild_app (a b : list cell) : rebuild (a ++ b) = rebuild a ++ rebuild b.
Proof. apply flat_map_app. Qed.

Lemma is_code_closing_cell (t : str) (block : list str) :
  is_code (closing_cell t block) = true.
Proof. unfold closing_cell. destruct (eqb t (py "python")); reflexivity. Qed.

Lemma rebuild_closing_cell (t : str) (block : list str) :
  block <> [] -> Forall no_break block ->
  rebuild [closing_cell t block] = fence :: block ++ [fence].
Proof.
  intros Hne Hb. unfold rebuild, wrapped_lines. cbn [flat_map].
  rewrite is_code_closing_cell, app_nil_r.
  unfold lines_of_cell. rewrite source_closing_cell, split_join by assumption.
  reflexivity.
Qed.

Lemma rebuild_finish (st : locals) :
  Forall no_break (markdown_block st) ->
  rebuild (finish st) = rebuild (cells st) ++ markdown_block st.
Proof.
  intros Hm. unfold finish.
  destruct (markdown_block st) as [|m ms] eqn:E.
  - rewrite app_nil_r. reflexivity.
  - rewrite rebuild_app. f_equal.
    change (rebuild [new_markdown_cell (join LF (m :: ms))])
      with (split 10%N (join LF (m :: ms)) ++ []).
    rewrite app_nil_r.
    apply split_join; [discriminate | assumption].
Qed.

(** One iteration keeps every line, a fence line as the generic fence,
    provided it does not close a region that has no line. *)
Lemma rebuild_step (st : locals) (l : str) :
  clean st -> consistent st ->
  (is_fence l = true -> in_code_block st = true -> code_block st <> []) ->
  rebuild (cells (step st l)) ++ open_text (step st l) =
    (rebuild (cells st) ++ open_text st) ++ with_generic_fences [l].
Proof.
  intros Hclean Hcons Hne. pose proof Hclean as [Hc Hm].
  pose proof Hcons as [Hout Hins].
  unfold open_text, with_generic_fences. cbn [map].
  step_cases st l; cbn [cells in_code_block code_block markdown_block].
  - rewrite rebuild_app, rebuild_closing_cell by auto.
    rewrite (Hins eq_refl), app_nil_r, <- !app_assoc. reflexivity.
  - rewrite rebuild_finish by assumption.
    rewrite (Hout eq_refl). reflexivity.
  - rewrite <- !app_assoc. reflexivity.
  - rewrite <- !app_assoc. reflexivity.
Qed.

Lemma with_generic_fences_cons (l : str) (ls : list str) :
  with_generic_fences (l :: ls) =
    with_generic_fences [l] ++ with_generic_fences ls.
Proof. reflexivity. Qed.

(** The loop keeps every line, in cells or in the region it is in, when
    no code region of the lines is empty. *)
Lemma rebuild_scan (ls : list str) (st : locals) (fresh : bool) :
  Forall no_break ls -> clean st -> consistent st ->
  (in_code_block st = true -> fresh = false -> code_block st <> []) ->
  empty_region (in_code_block st) fresh ls = false ->
  rebuild (cells (scan st ls)) ++ open_text (scan st ls) =
    (rebuild (cells st) ++ open_text st) ++ with_generic_fences ls.
Proof.
  revert st fresh; induction ls as [|l ls IH];
    intros st fresh Hls Hclean Hcons Hfresh He.
  - simpl. rewrite app_nil_r. reflexivity.
  - inversion Hls as [|? ? Hl Hls']; subst.
    rewrite scan_cons, with_generic_fences_cons.
    assert (Hstep : is_fence l = true -> in_code_block st = true ->
                    code_block st <> []).
    { intros Hf Hin. apply (Hfresh Hin).
      simpl in He. rewrite Hf, Hin in He.
      apply orb_false_iff in He. apply He. }
    pose proof (rebuild_step st l Hclean Hcons Hstep) as Es.
    pose proof (clean_step st l Hl Hclean) as Hclean'.
    pose proof (consistent_step st l Hcons) as Hcons'.
    simpl in He.
    assert (IH' : rebuild (cells (scan (step st l) ls))
                    ++ open_text (scan (step st l) ls)
                  = (rebuild (cells (step st l)) ++ open_text (step st l))
                      ++ with_generic_fences ls).
    { clear Es Hstep. revert He Hclean' Hcons'.
      step_cases st l; intros He Hclean' Hcons'.
      - apply orb_false_iff in He. destruct He as [_ He].
        apply (IH _ false); auto; simpl; discriminate.
      - apply (IH _ true); auto; simpl; discriminate.
      - apply (IH _ false); auto; simpl.
        intros _ _. destruct (code_block st); discriminate.
      - apply (IH _ false); auto; simpl; discriminate. }
    rewrite IH', Es, <- !app_assoc. reflexivity.
Qed.

Lemma clean_scan (ls : list str) (st : locals) :
  Forall no_break ls -> clean st -> clean (scan st ls).
Proof.
  revert st; induction ls as [|l ls IH]; intros st Hls H; [exact H|].
  inversion Hls; subst. rewrite scan_cons. apply IH; auto using clean_step.
Qed.

(** C8 (amended): for every input whose fences are properly paired and
    none of whose code regions is empty, the stored text of the blocks in
    order, the text of every code block put between two generic fence
    lines, is the input line for line, each fence line of the input
    standing as the generic fence; so the lines stored in the blocks are
    exactly the lines of the input that are not fence lines, in their
    order and untrimmed. *)
Theorem C8_cells_rebuild_lines (md_content : str) :
  properly_paired (splitlines md_content) = true ->
  has_empty_region (splitlines md_content) = false ->
  rebuild (split_content_to_cells md_content)
    = with_generic_fences (splitlines md_content)
  /\ content (split_content_to_cells md_content)
     = non_fence_lines (splitlines md_content).
Proof.
  intros Hp He. split; [|apply cells_keep_lines; assumption].
  unfold split_content_to_cells, split_lines.
  assert (Hls : Forall no_break (splitlines md_content))
    by (apply Forall_forall; intros l; apply splitlines_no_break).
  assert (Hclean : clean initial) by (split; constructor).
  pose proof (rebuild_scan (splitlines md_content) initial false
                Hls Hclean consistent_initial) as E.
  rewrite rebuild_finish by apply (clean_scan _ _ Hls Hclean).
  pose proof (paired_outside _ Hp) as Hout.
  unfold open_text in E. rewrite Hout in E.
  apply E; [discriminate | exact He].
Qed.

Lemma C8_cells_rebuild_lines_witness :
  let md_content :=
    py "```python" ++ LF ++ py "  x = 1" ++ LF ++ py "  ``` " ++ LF ++
    py "Text" ++ LF ++ py "```bash" ++ LF ++ py "ls" ++ LF ++ py "```" in
  rebuild (split_content_to_cells md_content)
    = with_generic_fences (splitlines md_content)
  /\ content (split_content_to_cells md_content)
     = non_fence_lines (splitlines md_content).
Proof.
  intros md_content.
  apply (C8_cells_rebuild_lines md_content); reflexivity.
Defined.

(** The input of the witness, rebuilt: the tags and the white space of the
    fence lines are gone, every other line is as it was. *)
Example rebuild_example :
  rebuild (split_content_to_cells
             (py "```python" ++ LF ++ py "  x = 1" ++ LF ++ py "  ``` " ++ LF ++
              py "Text" ++ LF ++ py "```bash" ++ LF ++ py "ls" ++ LF ++ py "```"))
  = [py "```"; py "  x = 1"; py "```"; py "Text"; py "```"; py "ls"; py "```"].
Proof. reflexivity. Qed.

(** ** Further properties of the splitter *)

(** *** How many cells *)

Lemma count_code_app (a b : list cell) :
  count_code (a ++ b) = count_code a + count_code b.
Proof. unfold count_code. rewrite filter_app, length_app. reflexivity. Qed.

Lemma count_markdown_app (a b : list cell) :
  count_markdown (a ++ b) = count_markdown a + count_markdown b.
Proof. unfold count_markdown. rewrite filter_app, length_app. reflexivity. Qed.

Lemma count_closing_cell (t : str) (block : list str) :
  count_code [closing_cell t block] = 1 /\
  count_markdown [closing_cell t block] = 0.
Proof. unfold closing_cell. destruct (eqb t (py "python")); split; reflexivity. Qed.

Lemma count_finish (st : locals) :
  count_code (finish st) = count_code (cells st) /\
  count_markdown (finish st) =
    count_markdown (cells st)
    + match markdown_block st with [] => 0 | _ :: _ => 1 end.
Proof.
  unfold finish. destruct (markdown_block st).
  - rewrite Nat.add_0_r. split; reflexivity.
  - rewrite count_code_app, count_markdown_app. simpl.
    rewrite Nat.add_0_r. split; reflexivity.
Qed.

(** Every second fence line closes a region and adds one code cell. *)
Lemma count_code_scan (ls : list str) (st : locals) :
  count_code (cells (scan st ls)) =
    count_code (cells st)
    + (fence_count ls + Nat.b2n (in_code_block st)) / 2.
Proof.
  revert st; induction ls as [|l ls IH]; intros st.
  - simpl. destruct (in_code_block st); simpl; lia.
  - rewrite scan_cons, IH, fence_count_cons.
    step_cases st l; simpl cells; simpl in_code_block; simpl Nat.b2n.
    + rewrite count_code_app.
      destruct (count_closing_cell (current_code_type st) (code_block st))
        as [-> _].
      replace (S (fence_count ls) + 1) with (fence_count ls + 1 * 2) by lia.
      rewrite Nat.div_add, Nat.add_0_r by discriminate. lia.
    + destruct (count_finish st) as [-> _].
      replace (S (fence_count ls) + 0) with (fence_count ls + 1) by lia.
      reflexivity.
    + reflexivity.
    + reflexivity.
Qed.

(** X1: the splitter returns exactly one code cell for every pair of fence
    lines: the number of code cells is half the number of fence lines,
    rounded down. *)
Theorem code_cells_per_fence_pair (md_content : str) :
  count_code (split_content_to_cells md_content)
    = fence_count (splitlines md_content) / 2.
Proof.
  unfold split_content_to_cells, split_lines.
  destruct (count_finish (scan initial (splitlines md_content))) as [-> _].
  rewrite count_code_scan. simpl. rewrite Nat.add_0_r. reflexivity.
Qed.

Lemma count_markdown_scan (ls : list str) (st : locals) :
  count_markdown (cells st)
    <= count_code (cells st) + Nat.b2n (in_code_block st) ->
  count_markdown (cells (scan st ls))
    <= count_code (cells (scan st ls)) + Nat.b2n (in_code_block (scan st ls)).
Proof.
  revert st; induction ls as [|l ls IH]; intros st H; [exact H|].
  rewrite scan_cons. apply IH. revert H.
  step_cases st l; simpl cells; simpl in_code_block; simpl Nat.b2n; intros H.
  - rewrite count_code_app, count_markdown_app.
    destruct (count_closing_cell (current_code_type st) (code_block st))
      as [-> ->]. lia.
  - destruct (count_finish st) as [-> ->].
    destruct (markdown_block st); lia.
  - exact H.
  - exact H.
Qed.

(** X2: the markdown cells are at most one more than the code cells. *)
Theorem markdown_cells_bound (md_content : str) :
  count_markdown (split_content_to_cells md_content)
    <= count_code (split_content_to_cells md_content) + 1.
Proof.
  unfold split_content_to_cells, split_lines.
  set (st := scan initial (splitlines md_content)).
  assert (H : count_markdown (cells st)
              <= count_code (cells st) + Nat.b2n (in_code_block st))
    by (apply count_markdown_scan; apply Nat.le_0_l).
  destruct (count_finish st) as [-> ->].
  destruct (in_code_block st) eqn:Hin; simpl in H.
  - destruct (consistent_scan (splitlines md_content) initial
                consistent_initial) as [_ Hm].
    fold st in Hm. rewrite (Hm Hin). lia.
  - destruct (markdown_block st); lia.
Qed.

(** *** Which cells *)

Lemma splitter_cell_closing (t : str) (block : list str) :
  splitter_cell (closing_cell t block).
Proof.
  unfold closing_cell, splitter_cell.
  destruct (eqb t (py "python")); right; simpl; auto.
Qed.

Lemma splitter_cells_finish (st : locals) :
  Forall splitter_cell (cells st) -> Forall splitter_cell (finish st).
Proof.
  intros H. unfold finish. destruct (markdown_block st); [exact H|].
  apply Forall_app. split; [exact H|].
  constructor; [left; split; reflexivity | constructor].
Qed.

Lemma splitter_cells_scan (ls : list str) (st : locals) :
  Forall splitter_cell (cells st) ->
  Forall splitter_cell (cells (scan st ls)).
Proof.
  revert st; induction ls as [|l ls IH]; intros st H; [exact H|].
  rewrite scan_cons. apply IH.
  step_cases st l; simpl cells; auto using splitter_cells_finish.
  apply Forall_app. split; [exact H|].
  constructor; [apply splitter_cell_closing | constructor].
Qed.

(** X3: every cell the splitter returns is a markdown cell without
    metadata or a code cell whose metadata is empty or the [bash] kernel:
    no other kernel is ever named, and no markdown cell gets one. *)
Theorem only_plain_or_bash_cells (md_content : str) :
  Forall splitter_cell (split_content_to_cells md_content).
Proof.
  unfold split_content_to_cells, split_lines.
  apply splitter_cells_finish, splitter_cells_scan. constructor.
Qed.

(** *** Fence lines are never stored *)

Lemma non_fence_closing_cell (t : str) (block : list str) :
  Forall no_break block -> Forall non_fence block ->
  Forall non_fence (content [closing_cell t block]).
Proof.
  intros Hb Hf. destruct block as [|b block].
  - unfold content, lines_of_cell; simpl. rewrite source_closing_cell.
    repeat constructor.
  - rewrite content_closing_cell; [exact Hf | discriminate | exact Hb].
Qed.

Lemma non_fence_scan (ls : list str) (st : locals) :
  Forall no_break ls -> clean st ->
  Forall non_fence (content (cells st)) ->
  Forall non_fence (code_block st) ->
  Forall non_fence (markdown_block st) ->
  Forall non_fence (content (cells (scan st ls)))
  /\ Forall non_fence (markdown_block (scan st ls))
  /\ clean (scan st ls).
Proof.
  revert st; induction ls as [|l ls IH]; intros st Hls Hclean Hc Hcode Hmd;
    [auto|].
  inversion Hls as [|? ? Hl Hls']; subst.
  rewrite scan_cons.
  pose proof (clean_step st l Hl Hclean) as Hclean'.
  pose proof Hclean as [Hbc Hbm].
  apply IH; auto; clear IH; revert Hclean'.
  - step_cases st l; simpl cells; intros _; auto.
    + rewrite content_app. apply Forall_app. split; [exact Hc|].
      apply non_fence_closing_cell; assumption.
    + rewrite content_finish by assumption. apply Forall_app. auto.
  - step_cases st l; simpl code_block; intros _; auto.
    apply Forall_app. split; [exact Hcode|]. constructor; [exact Hf | constructor].
  - step_cases st l; simpl markdown_block; intros _; auto.
    apply Forall_app. split; [exact Hmd|]. constructor; [exact Hf | constructor].
Qed.

(** X4: no line of the text of any cell is a fence line: the fence lines of
    the input are used up as delimiters and never stored. *)
Theorem fence_lines_never_stored (md_content : str) :
  Forall non_fence (content (split_content_to_cells md_content)).
Proof.
  unfold split_content_to_cells, split_lines.
  assert (Hls : Forall no_break (splitlines md_content))
    by (apply Forall_forall; intros l; apply splitlines_no_break).
  destruct (non_fence_scan (splitlines md_content) initial Hls)
    as (Hc & Hm & Hclean); try (split; constructor); try constructor.
  rewrite content_finish by apply Hclean.
  apply Forall_app. auto.
Qed.

(** *** Splitting piece by piece *)

Lemma split_lines_app_closed (pre post : list str) :
  properly_paired pre = true -> ends_closed pre = true ->
  split_lines (pre ++ post) = split_lines pre ++ split_lines post.
Proof.
  intros Hp Hc. unfold split_lines at 1 2. rewrite scan_app.
  pose proof (paired_outside pre Hp) as Hout.
  pose proof (markdown_block_after_closed pre Hp Hc) as Hm.
  destruct (consistent_scan pre initial consistent_initial) as [Hcode _].
  specialize (Hcode Hout).
  unfold finish at 2. rewrite Hm.
  destruct (scan initial pre) as [cs b cb mb t]; simpl in *; subst.
  apply finish_scan_restart.
Qed.

Lemma split_lines_app_opening (pre : list str) (opening : str)
      (rest : list str) :
  properly_paired pre = true -> is_fence opening = true ->
  split_lines (pre ++ opening :: rest) =
    split_lines pre ++ split_lines (opening :: rest).
Proof.
  intros Hp Ho.
  change (pre ++ opening :: rest) with (pre ++ [opening] ++ rest).
  rewrite (app_assoc pre [opening]).
  unfold split_lines at 1 3.
  rewrite scan_app, (scan_to_opening pre opening Hp Ho).
  rewrite scan_cons, (step_opening initial opening Ho eq_refl).
  rewrite <- finish_cells_prefix, <- scan_cells_prefix.
  unfold set_cells, finish; simpl. rewrite app_nil_r. reflexivity.
Qed.

(** X5: the splitter works piece by piece: where the lines are cut after a
    closing fence (or at the very start), or right before an opening fence,
    the cells of the whole are the cells of the first piece followed by the
    cells of the second. *)
Theorem split_at_region_boundary
        (md_content : str) (pre post : list str) :
  splitlines md_content = pre ++ post ->
  properly_paired pre = true ->
  ends_closed pre = true
    \/ (exists opening rest, post = opening :: rest /\ is_fence opening = true) ->
  split_content_to_cells md_content = split_lines pre ++ split_lines post.
Proof.
  intros E Hp [Hc | (opening & rest & -> & Ho)];
    unfold split_content_to_cells; rewrite E.
  - apply split_lines_app_closed; assumption.
  - apply split_lines_app_opening; assumption.
Qed.

Lemma split_at_region_boundary_witness :
  split_content_to_cells
    (py "a" ++ LF ++ py "```" ++ LF ++ py "x" ++ LF ++ py "```" ++ LF ++
     py "b" ++ LF ++ py "```sh" ++ LF ++ py "y" ++ LF ++ py "```")
  = split_lines [py "a"; py "```"; py "x"; py "```"; py "b"]
    ++ split_lines [py "```sh"; py "y"; py "```"].
Proof.
  apply (split_at_region_boundary
           (py "a" ++ LF ++ py "```" ++ LF ++ py "x" ++ LF ++ py "```" ++ LF ++
            py "b" ++ LF ++ py "```sh" ++ LF ++ py "y" ++ LF ++ py "```")
           [py "a"; py "```"; py "x"; py "```"; py "b"]
           [py "```sh"; py "y"; py "```"]);
    [reflexivity | reflexivity | right; eexists; eexists; split; reflexivity].
Defined.

(** Markdown lines on both sides of a cut are not split: they make one cell. *)
Example markdown_merges_across_cut :
  split_lines ([py "a"] ++ [py "b"]) = [new_markdown_cell (py "a" ++ LF ++ py "b")]
  /\ split_lines [py "a"] ++ split_lines [py "b"]
     = [new_markdown_cell (py "a"); new_markdown_cell (py "b")].
Proof. split; reflexivity. Qed.

(** *** When there is no cell at all *)

Lemma first_fence_split (ls : list str) :
  Forall non_fence ls \/
  exists body c post,
    ls = body ++ c :: post /\ Forall non_fence body /\ is_fence c = true.
Proof.
  induction ls as [|l ls IH]; [left; constructor|].
  destruct (is_fence l) eqn:Hl.
  - right. exists [], l, ls. repeat split; auto.
  - destruct IH as [IH | (body & c & post & -> & Hb & Hc)].
    + left. constructor; assumption.
    + right. exists (l :: body), c, post. repeat split; auto.
Qed.

Lemma productive_finish (st : locals) : productive st -> finish st <> [].
Proof.
  unfold finish. intros [H | [_ H]]; destruct (markdown_block st) eqn:E;
    try congruence; destruct (cells st); discriminate.
Qed.

Lemma productive_step (st : locals) (l : str) :
  productive st -> productive (step st l).
Proof.
  intros H. pose proof (productive_finish st H) as Hfin. revert H.
  unfold productive.
  step_cases st l; simpl; intros [H | [Hb H]]; try discriminate; auto.
  - left. destruct (cells st); [congruence | discriminate].
  - right. split; [reflexivity|]. destruct (markdown_block st); discriminate.
Qed.

Lemma productive_scan (ls : list str) (st : locals) :
  productive st -> productive (scan st ls).
Proof.
  revert st; induction ls as [|l ls IH]; intros st H; [exact H|].
  rewrite scan_cons. apply IH, productive_step, H.
Qed.

(** X6: the splitter returns no cell exactly when the text is empty or is
    one code region that is never closed: its first line is a fence line
    and no other line is. *)
Theorem no_cell_iff (md_content : str) :
  split_content_to_cells md_content = [] <->
  md_content = empty \/
  exists opening rest,
    splitlines md_content = opening :: rest /\
    is_fence opening = true /\ Forall non_fence rest.
Proof.
  split.
  - unfold split_content_to_cells. intros H.
    destruct (splitlines md_content) as [|l rest] eqn:E.
    + left. apply splitlines_nil, E.
    + right. exists l, rest. split; [reflexivity|].
      destruct (is_fence l) eqn:Hl.
      * split; [reflexivity|].
        destruct (first_fence_split rest)
          as [Hr | (body & c & post & -> & Hb & Hc)]; [exact Hr|].
        exfalso.
        change (l :: body ++ c :: post)
          with ([] ++ l :: body ++ c :: post) in H.
        rewrite (split_lines_closed_region [] l body c post eq_refl Hl Hb Hc)
          in H.
        discriminate.
      * exfalso. revert H. unfold split_lines. rewrite scan_cons.
        apply productive_finish, productive_scan.
        rewrite (step_markdown_line initial l Hl eq_refl).
        right. split; [reflexivity | discriminate].
  - intros [-> | (opening & rest & E & Ho & Hr)]; [reflexivity|].
    apply (only_unterminated_region md_content opening rest E Ho Hr).
Qed.

Lemma no_cell_iff_witness :
  split_content_to_cells (py "```python" ++ LF ++ py "x = 1" ++ LF ++ py "y = 2")
  = [].
Proof.
  apply no_cell_iff. right.
  exists (py "```python"), [py "x = 1"; py "y = 2"].
  repeat split; repeat constructor.
Defined.

(** *** Line endings *)

Lemma splitlines_from_cons2 (cur : str) (c c' : char) (s : str) :
  splitlines_from cur (c :: c' :: s) =
    if is_linebreak c then
      if ((c =? 13) && (c' =? 10))%N
      then cur :: splitlines_from [] s
      else cur :: splitlines_from [] (c' :: s)
    else splitlines_from (cur ++ [c]) (c' :: s).
Proof. reflexivity. Qed.

Lemma not_linebreak_not_lf (c : char) :
  is_linebreak c = false -> (c =? 10)%N = false.
Proof.
  intros H. destruct (N.eqb_spec c 10) as [->|]; [discriminate | reflexivity].
Qed.

Lemma splitlines_from_last_line (cur : str) (c : char) :
  is_linebreak c = false ->
  splitlines_from cur [c; 10%N] = [cur ++ [c]] /\
  splitlines_from cur [c] = [cur ++ [c]].
Proof.
  intros Hc. rewrite splitlines_from_cons2. simpl. rewrite Hc. simpl.
  split; [reflexivity|]. destruct (cur ++ [c]) eqn:E; [|reflexivity].
  destruct cur; discriminate.
Qed.

Lemma splitlines_from_final_newline (s cur : str) (c : char) :
  is_linebreak c = false ->
  splitlines_from cur (s ++ [c; 10%N]) = splitlines_from cur (s ++ [c]).
Proof.
  intros Hc. revert cur.
  induction s as [|d|d d' s IHs IHd] using str_ind2; intros cur.
  - simpl app. destruct (splitlines_from_last_line cur c Hc) as [-> ->].
    reflexivity.
  - change ([d] ++ [c; 10%N]) with (d :: c :: [10%N]).
    change ([d] ++ [c]) with (d :: c :: []).
    rewrite (splitlines_from_cons2 cur d c [10%N]),
      (splitlines_from_cons2 cur d c []),
      (not_linebreak_not_lf c Hc), andb_false_r.
    destruct (is_linebreak d).
    + destruct (splitlines_from_last_line [] c Hc) as [-> ->]. reflexivity.
    + destruct (splitlines_from_last_line (cur ++ [d]) c Hc) as [-> ->].
      reflexivity.
  - change ((d :: d' :: s) ++ [c; 10%N]) with (d :: d' :: (s ++ [c; 10%N])).
    change ((d :: d' :: s) ++ [c]) with (d :: d' :: (s ++ [c])).
    rewrite !splitlines_from_cons2.
    destruct (is_linebreak d).
    + destruct ((d =? 13) && (d' =? 10))%N.
      * rewrite IHs. reflexivity.
      * f_equal. apply (IHd []).
    + apply (IHd (cur ++ [d])).
Qed.

(** X7: a newline at the very end of the text changes nothing: the text
    with and without a final LF after its last line give the same cells. *)
Theorem final_newline_ignored (s : str) (c : char) :
  is_linebreak c = false ->
  split_content_to_cells (s ++ [c] ++ LF) = split_content_to_cells (s ++ [c]).
Proof.
  intros Hc. unfold split_content_to_cells, splitlines.
  change (s ++ [c] ++ LF) with (s ++ [c; 10%N]).
  rewrite (splitlines_from_final_newline s [] c Hc). reflexivity.
Qed.

Lemma final_newline_ignored_witness :
  split_content_to_cells
    ((py "# T" ++ LF ++ py "```" ++ LF ++ py "x" ++ LF ++ py "```" ++ LF ++ py "en")
       ++ [100%N] ++ LF)
  = split_content_to_cells
      ((py "# T" ++ LF ++ py "```" ++ LF ++ py "x" ++ LF ++ py "```" ++ LF ++ py "en")
         ++ [100%N]).
Proof.
  apply (final_newline_ignored
           (py "# T" ++ LF ++ py "```" ++ LF ++ py "x" ++ LF ++ py "```" ++ LF ++ py "en")
           100%N).
  reflexivity.
Defined.

(** A second newline at the end is not ignored: it is an empty last line. *)
Example second_final_newline_kept :
  split_content_to_cells (py "a" ++ LF ++ LF)
  = [new_markdown_cell (py "a" ++ LF)].
Proof. reflexivity. Qed.

Lemma splitlines_from_crlf (s cur : str) :
  lf_only s = true ->
  splitlines_from cur (to_crlf s) = splitlines_from cur s.
Proof.
  revert cur; induction s as [|c r IH]; intros cur Hlf; [reflexivity|].
  simpl in Hlf. apply andb_true_iff in Hlf. destruct Hlf as [Hc Hr].
  unfold to_crlf. simpl flat_map. fold (to_crlf r).
  destruct (N.eqb_spec c 10) as [->|Hne].
  - change ([13%N; 10%N] ++ to_crlf r) with (13%N :: 10%N :: to_crlf r).
    rewrite splitlines_from_cons2. simpl. rewrite (IH [] Hr).
    destruct r; reflexivity.
  - assert (Hb : is_linebreak c = false).
    { destruct (is_linebreak c); [|reflexivity].
      simpl in Hc. discriminate Hc. }
    simpl. rewrite Hb. apply IH, Hr.
Qed.

(** X8: a text whose lines end in CR LF gives the same cells as the same
    text with LF line ends. *)
Theorem crlf_same_cells (s : str) :
  lf_only s = true ->
  split_content_to_cells (to_crlf s) = split_content_to_cells s.
Proof.
  intros H. unfold split_content_to_cells, splitlines.
  rewrite (splitlines_from_crlf s [] H). reflexivity.
Qed.

Lemma crlf_same_cells_witness :
  split_content_to_cells
    (py "a" ++ [13%N; 10%N] ++ py "```" ++ [13%N; 10%N] ++ py "x" ++
     [13%N; 10%N] ++ py "```" ++ [13%N; 10%N])
  = split_content_to_cells
      (py "a" ++ LF ++ py "```" ++ LF ++ py "x" ++ LF ++ py "```" ++ LF).
Proof.
  apply (crlf_same_cells
           (py "a" ++ LF ++ py "```" ++ LF ++ py "x" ++ LF ++ py "```" ++ LF)).
  reflexivity.
Defined.

(** *** White space around a fence *)

Lemma lstrip_app_space (ws l : str) :
  all_space ws = true -> lstrip (ws ++ l) = lstrip l.
Proof.
  induction ws as [|w ws IH]; [reflexivity|].
  simpl. intros H. apply andb_true_iff in H. destruct H as [-> H]. auto.
Qed.

Lemma lstrip_all_space (l : str) : all_space l = true -> lstrip l = [].
Proof.
  intros H. rewrite <- (app_nil_r l). rewrite lstrip_app_space; auto.
Qed.

Lemma lstrip_nil_all_space (l : str) : lstrip l = [] -> all_space l = true.
Proof.
  induction l as [|c l IH]; [reflexivity|].
  simpl. destruct (is_space c); [exact IH | discriminate].
Qed.

Lemma lstrip_app_kept (l ws : str) :
  lstrip l <> [] -> lstrip (l ++ ws) = lstrip l ++ ws.
Proof.
  induction l as [|c l IH]; [intros H; exfalso; apply H; reflexivity|].
  simpl. destruct (is_space c); [exact IH | intros _; reflexivity].
Qed.

Lemma all_space_rev (ws : str) : all_space (rev ws) = all_space ws.
Proof.
  unfold all_space. induction ws as [|w ws IH]; [reflexivity|].
  simpl. rewrite forallb_app, IH. simpl.
  rewrite andb_true_r. apply andb_comm.
Qed.

Lemma rstrip_app_space (l ws : str) :
  all_space ws = true -> rstrip (l ++ ws) = rstrip l.
Proof.
  intros H. unfold rstrip. rewrite rev_app_distr, lstrip_app_space; auto.
  rewrite all_space_rev. exact H.
Qed.

(** White space on either side of a line does not reach [strip]. *)
Lemma strip_padded (ws l ws' : str) :
  all_space ws = true -> all_space ws' = true ->
  strip (ws ++ l ++ ws') = strip l.
Proof.
  intros H H'. unfold strip. rewrite (lstrip_app_space ws _ H).
  destruct (lstrip l) as [|x xs] eqn:E.
  - rewrite lstrip_all_space; [reflexivity|].
    unfold all_space. rewrite forallb_app.
    apply andb_true_iff. split; [apply lstrip_nil_all_space, E | exact H'].
  - rewrite lstrip_app_kept by congruence.
    rewrite E. apply rstrip_app_space, H'.
Qed.

Lemma step_padded_fence (st : locals) (ws l ws' : str) :
  all_space ws = true -> all_space ws' = true -> is_fence l = true ->
  step st (ws ++ l ++ ws') = step st l.
Proof.
  intros H H' Hf.
  assert (Hf' : is_fence (ws ++ l ++ ws') = true)
    by (unfold is_fence; rewrite strip_padded; assumption).
  destruct (in_code_block st) eqn:Hin.
  - rewrite !step_closing by assumption. reflexivity.
  - rewrite !step_opening by assumption. rewrite strip_padded by assumption.
    reflexivity.
Qed.

(** X9: white space before and after a fence line is of no account: a text
    that differs from another only by such white space around one fence
    line gives the same cells, so indented fences delimit, and white space
    after a language tag is not part of it. *)
Theorem fence_padding_ignored
        (a b : str) (pre : list str) (ws l ws' : str) (post : list str) :
  splitlines a = pre ++ l :: post ->
  splitlines b = pre ++ (ws ++ l ++ ws') :: post ->
  is_fence l = true ->
  all_space ws = true -> all_space ws' = true ->
  split_content_to_cells b = split_content_to_cells a.
Proof.
  intros Ea Eb Hf H H'. unfold split_content_to_cells, split_lines.
  rewrite Ea, Eb, !scan_app, !scan_cons.
  rewrite (step_padded_fence _ ws l ws' H H' Hf). reflexivity.
Qed.

Lemma fence_padding_ignored_witness :
  split_content_to_cells
    (py "- item" ++ LF ++ py "  ```python  " ++ LF ++ py "  x = 1" ++ LF ++ py "  ```")
  = split_content_to_cells
      (py "- item" ++ LF ++ py "```python" ++ LF ++ py "  x = 1" ++ LF ++ py "  ```").
Proof.
  apply (fence_padding_ignored
           (py "- item" ++ LF ++ py "```python" ++ LF ++ py "  x = 1" ++ LF ++ py "  ```")
           (py "- item" ++ LF ++ py "  ```python  " ++ LF ++ py "  x = 1" ++ LF ++ py "  ```")
           [py "- item"] (py "  ") (py "```python") (py "  ")
           [py "  x = 1"; py "  ```"]);
    reflexivity.
Defined.

(** ** Properties of the title step *)

Lemma title_text_heading (md_file : str) :
  startswith (title_text md_file) (py "# ") = true.
Proof. unfold title_text. apply startswith_app. eauto. Qed.

(** X10: every notebook the title step lets through begins with a cell
    whose source starts with [# ]; its cells are the cells of the splitter,
    with at most the title cell put in front. *)
Theorem notebook_starts_with_heading (md_file md_content : str)
        (nb_cells : list cell) :
  notebook_cells md_file md_content = Ok nb_cells ->
  (exists first rest,
      nb_cells = first :: rest /\ startswith (source first) (py "# ") = true)
  /\ (nb_cells = split_content_to_cells md_content
      \/ nb_cells = new_markdown_cell (title_text md_file)
                      :: split_content_to_cells md_content).
Proof.
  unfold notebook_cells.
  destruct (split_content_to_cells md_content) as [|c cs]; [discriminate|].
  rewrite add_title_first_cell.
  destruct (startswith (source c) (py "# ")) eqn:Hc; intros H;
    injection H as <-.
  - split; [exists c, cs; auto | left; reflexivity].
  - split; [|right; reflexivity].
    exists (new_markdown_cell (title_text md_file)), (c :: cs).
    split; [reflexivity | apply title_text_heading].
Qed.

Lemma notebook_starts_with_heading_witness :
  (exists first rest,
      [new_markdown_cell (py "# 2 3 Default Values");
       new_markdown_cell (py "Fields may have defaults.")] = first :: rest
      /\ startswith (source first) (py "# ") = true)
  /\ ([new_markdown_cell (py "# 2 3 Default Values");
       new_markdown_cell (py "Fields may have defaults.")]
      = split_content_to_cells (py "Fields may have defaults.")
      \/ [new_markdown_cell (py "# 2 3 Default Values");
          new_markdown_cell (py "Fields may have defaults.")]
         = new_markdown_cell (title_text (py "2_3_default_values.md"))
             :: split_content_to_cells (py "Fields may have defaults.")).
Proof.
  apply (notebook_starts_with_heading
           (py "2_3_default_values.md") (py "Fields may have defaults.")).
  reflexivity.
Defined.

(** X11: the title step is idempotent: applied to its own result it
    changes nothing, so a title is never added twice. *)
Theorem add_title_idempotent (md_file : str) (nb_cells nb_cells' : list cell) :
  add_title md_file nb_cells = Ok nb_cells' ->
  add_title md_file nb_cells' = Ok nb_cells'.
Proof.
  destruct nb_cells as [|c cs]; [discriminate|].
  rewrite add_title_first_cell.
  destruct (startswith (source c) (py "# ")) eqn:Hc; intros H;
    injection H as <-; rewrite add_title_first_cell.
  - rewrite Hc. reflexivity.
  - cbn [source new_markdown_cell]. rewrite title_text_heading. reflexivity.
Qed.

Lemma add_title_idempotent_witness :
  add_title (py "3_4_root_validators.md")
            [new_markdown_cell (py "# 3 4 Root Validators");
             new_code_cell (py "x = 1") []]
  = Ok [new_markdown_cell (py "# 3 4 Root Validators");
        new_code_cell (py "x = 1") []].
Proof.
  apply (add_title_idempotent (py "3_4_root_validators.md")
                              [new_code_cell (py "x = 1") []]).
  reflexivity.
Defined.

(** [# ] holds no line end, so whether joined lines start with it is
    settled by the first line. *)
Lemma startswith_heading_join (l : str) (ls : list str) :
  startswith (join LF (l :: ls)) (py "# ") = startswith l (py "# ").
Proof.
  destruct ls as [|q ls]; [reflexivity|].
  rewrite join_cons by discriminate.
  destruct l as [|a [|b l]]; simpl.
  - reflexivity.
  - rewrite andb_false_r. reflexivity.
  - reflexivity.
Qed.

(** A text whose first line is no fence line starts with a markdown cell
    that starts with this line. *)
Lemma first_cell_markdown (l : str) (rest : list str) :
  is_fence l = false ->
  exists md cs,
    split_lines (l :: rest) = new_markdown_cell (join LF (l :: md)) :: cs.
Proof.
  intros Hl.
  destruct (first_fence_split rest) as [Hr | (body & c & post & -> & Hb & Hc)].
  - exists rest, [].
    apply (split_lines_all_markdown (l :: rest)). constructor; assumption.
  - exists body, (split_lines (c :: post)).
    assert (Hmd : Forall non_fence (l :: body)) by (constructor; assumption).
    change (l :: body ++ c :: post) with ((l :: body) ++ c :: post).
    rewrite split_lines_app_opening, (split_lines_all_markdown _ Hmd); auto.
    unfold properly_paired. rewrite (fence_count_non_fence _ Hmd). reflexivity.
Qed.

(** X12: when the first line of the text is no fence line, the title cell
    is added exactly when that line does not start with [# ]: a text that
    opens with a level-1 heading keeps its own. *)
Theorem title_decided_by_first_line
        (md_file md_content l : str) (rest : list str) :
  splitlines md_content = l :: rest ->
  is_fence l = false ->
  notebook_cells md_file md_content =
    if startswith l (py "# ")
    then Ok (split_content_to_cells md_content)
    else Ok (new_markdown_cell (title_text md_file)
               :: split_content_to_cells md_content).
Proof.
  intros E Hl. unfold notebook_cells, split_content_to_cells. rewrite E.
  destruct (first_cell_markdown l rest Hl) as (md & cs & ->).
  rewrite add_title_first_cell. cbn [source new_markdown_cell].
  rewrite startswith_heading_join. reflexivity.
Qed.

Lemma title_decided_by_first_line_witness :
  notebook_cells (py "2_6_nested_models.md")
                 (py "#Nested" ++ LF ++ py "```" ++ LF ++ py "x" ++ LF ++ py "```")
  = if startswith (py "#Nested") (py "# ")
    then Ok (split_content_to_cells
               (py "#Nested" ++ LF ++ py "```" ++ LF ++ py "x" ++ LF ++ py "```"))
    else Ok (new_markdown_cell (title_text (py "2_6_nested_models.md"))
               :: split_content_to_cells
                    (py "#Nested" ++ LF ++ py "```" ++ LF ++ py "x" ++ LF ++ py "```")).
Proof.
  apply (title_decided_by_first_line
           (py "2_6_nested_models.md")
           (py "#Nested" ++ LF ++ py "```" ++ LF ++ py "x" ++ LF ++ py "```")
           (py "#Nested") [py "```"; py "x"; py "```"]);
    reflexivity.
Defined.

(** X13: when the text opens with a closed code region, the title is
    decided by the first line of the code: it is added unless that line
    starts with [# ], and always added when the region is empty. *)
Theorem title_decided_by_first_code_line
        (md_file md_content opening : str) (body : list str)
        (closing : str) (post : list str) :
  splitlines md_content = opening :: body ++ closing :: post ->
  is_fence opening = true ->
  Forall non_fence body ->
  is_fence closing = true ->
  notebook_cells md_file md_content =
    if match body with
       | [] => false
       | first :: _ => startswith first (py "# ")
       end
    then Ok (split_content_to_cells md_content)
    else Ok (new_markdown_cell (title_text md_file)
               :: split_content_to_cells md_content).
Proof.
  intros E Ho Hb Hc. unfold notebook_cells, split_content_to_cells. rewrite E.
  change (opening :: body ++ closing :: post)
    with ([] ++ opening :: body ++ closing :: post).
  rewrite (split_lines_closed_region [] opening body closing post eq_refl Ho Hb Hc).
  change (split_lines [] ++ ?x) with x.
  rewrite add_title_first_cell, source_closing_cell.
  destruct body as [|first body]; [reflexivity|].
  rewrite startswith_heading_join. reflexivity.
Qed.

Lemma title_decided_by_first_code_line_witness :
  notebook_cells (py "3_1_basic_validation.md")
                 (py "```python" ++ LF ++ py "# imports" ++ LF ++
                  py "import pydantic" ++ LF ++ py "```" ++ LF ++ py "Text.")
  = Ok (split_content_to_cells
          (py "```python" ++ LF ++ py "# imports" ++ LF ++
           py "import pydantic" ++ LF ++ py "```" ++ LF ++ py "Text.")).
Proof.
  apply (title_decided_by_first_code_line
           (py "3_1_basic_validation.md")
           (py "```python" ++ LF ++ py "# imports" ++ LF ++
            py "import pydantic" ++ LF ++ py "```" ++ LF ++ py "Text.")
           (py "```python") [py "# imports"; py "import pydantic"]
           (py "```") [py "Text."]);
    try reflexivity; repeat constructor.
Defined.

(** ** Names of the notebooks *)

Lemma rfind_from_absent (c : char) (s : str) (i found : Z) :
  has_char c s = false -> rfind_from i found c s = found.
Proof.
  revert i found; induction s as [|x s IH]; intros i found H; [reflexivity|].
  simpl in H. apply orb_false_iff in H. destruct H as [Hx Hs].
  simpl. rewrite N.eqb_sym, Hx. apply IH, Hs.
Qed.

Lemma rfind_from_last (c : char) (a b : str) (i found : Z) :
  has_char c b = false ->
  rfind_from i found c (a ++ c :: b) = (i + Z.of_nat (length a))%Z.
Proof.
  intros Hb. revert i found; induction a as [|x a IH]; intros i found.
  - simpl. rewrite N.eqb_refl, (rfind_from_absent c b _ _ Hb). lia.
  - simpl app. simpl rfind_from. rewrite IH.
    change (length (x :: a)) with (S (length a)). lia.
Qed.

Lemma has_char_app (c : char) (a b : str) :
  has_char c (a ++ b) = has_char c a || has_char c b.
Proof. apply existsb_app. Qed.

Lemma splitext_root_stem (stem ext : str) :
  has_char 47%N stem = false ->
  has_char 47%N ext = false ->
  has_char 46%N ext = false ->
  existsb (fun c => negb (N.eqb c 46%N)) stem = true ->
  splitext_root (stem ++ py "." ++ ext) = stem.
Proof.
  intros Hs He Hd Hn. unfold splitext_root.
  change (stem ++ py "." ++ ext) with (stem ++ 46%N :: ext).
  assert (Hsep : rfind 47%N (stem ++ 46%N :: ext) = (-1)%Z).
  { apply rfind_from_absent. rewrite has_char_app, Hs. simpl. exact He. }
  assert (Hdot : rfind 46%N (stem ++ 46%N :: ext) = Z.of_nat (length stem)).
  { unfold rfind. rewrite rfind_from_last by exact Hd. lia. }
  rewrite Hsep, Hdot.
  replace (-1 <? Z.of_nat (length stem))%Z with true
    by (symmetry; apply Z.ltb_lt; lia).
  replace (Z.to_nat (Z.of_nat (length stem) - (-1 + 1))) with (length stem) by lia.
  rewrite Nat2Z.id. change (Z.to_nat (-1 + 1)) with 0. simpl skipn.
  assert (Hf : firstn (length stem) (stem ++ 46%N :: ext) = stem)
    by (rewrite firstn_app, firstn_all, Nat.sub_diag; simpl; apply app_nil_r).
  rewrite Hf, Hn. reflexivity.
Qed.

(** X14: for a file name [stem.ext] in the current directory (no slash,
    no dot in the extension, a stem that is not made of dots only) the
    notebook is written to [notebooks/stem.ipynb], whatever the extension:
    two files that differ in the extension only are written to the same
    notebook.  When the stem is made of ASCII characters, as the names of
    [md_files] are, the title is [# ] and the stem with its underscores
    turned to spaces and its words capitalised. *)
Theorem notebook_filename_of_stem (stem ext : str) :
  has_char 47%N stem = false ->
  has_char 47%N ext = false ->
  has_char 46%N ext = false ->
  existsb (fun c => negb (N.eqb c 46%N)) stem = true ->
  notebook_filename (stem ++ py "." ++ ext)
    = py "notebooks/" ++ stem ++ py ".ipynb"
  /\ (is_ascii stem = true ->
      title_text (stem ++ py "." ++ ext)
      = py "# " ++ title (replace 95%N 32%N stem)).
Proof.
  intros Hs He Hd Hn. unfold notebook_filename, title_text.
  rewrite (splitext_root_stem stem ext Hs He Hd Hn).
  split; [|reflexivity].
  destruct stem as [|x stem]; [discriminate|].
  assert (Hx : (x =? 47)%N = false).
  { unfold has_char in Hs. cbn [existsb] in Hs.
    apply orb_false_iff in Hs. rewrite N.eqb_sym. apply Hs. }
  assert (Hsw : startswith ((x :: stem) ++ py ".ipynb") OsPath.sep = false).
  { change (startswith ((x :: stem) ++ py ".ipynb") OsPath.sep)
      with ((x =? 47)%N && true).
    rewrite Hx. reflexivity. }
  unfold OsPath.join. cbn [fold_left]. unfold OsPath.join_step.
  rewrite Hsw. reflexivity.
Qed.

Lemma notebook_filename_of_stem_witness :
  notebook_filename (py "2_4_field_constraints" ++ py "." ++ py "md")
    = py "notebooks/" ++ py "2_4_field_constraints" ++ py ".ipynb"
  /\ title_text (py "2_4_field_constraints" ++ py "." ++ py "md")
     = py "# 2 4 Field Constraints".
Proof.
  destruct (notebook_filename_of_stem (py "2_4_field_constraints") (py "md"))
    as [Hpath Htitle]; try reflexivity.
  split; [exact Hpath | apply Htitle; reflexivity].
Defined.

(** ** Properties of the conversion loop *)

Section ScriptFacts.

Variables F E : Type.
Variable read_text : F -> str -> str + E.
Variable write_notebook : F -> str -> list cell -> F * option E.
Variable makedirs : F -> str -> F * option E.

Local Abbreviation convert_one := (convert_file read_text write_notebook).
Local Abbreviation convert_all := (convert_files read_text write_notebook).
Local Abbreviation run_script := (script read_text write_notebook makedirs).

Lemma convert_files_app (a b : list str) (w : process F) :
  convert_all (a ++ b) w =
    match convert_all a w with
    | (w', None) => convert_all b w'
    | (w', Some e) => (w', Some e)
    end.
Proof.
  revert w; induction a as [|f a IH]; intros w; [reflexivity|].
  simpl.
  destruct (convert_one f w) as [w' [e|]];
    [reflexivity | apply IH].
Qed.

(** X15: a file whose text gives no cell stops the whole script with
    [IndexError]: nothing is written for it, the files after it in the list
    are never converted, and the file system and the output stay as the
    files before it have left them. *)
Theorem file_without_cells_stops_loop
        (before : list str) (bad : str) (after : list str)
        (w w' : process F) (md_content : str) :
  convert_all before w = (w', None) ->
  read_text (files w') (md_path bad) = inl md_content ->
  split_content_to_cells md_content = [] ->
  convert_all (before ++ bad :: after) w = (w', Some (PyExn IndexError)).
Proof.
  intros Hb Hr Hs. rewrite convert_files_app, Hb.
  simpl. unfold convert_file.
  rewrite Hr. unfold notebook_cells. rewrite Hs. reflexivity.
Qed.

Local Abbreviation converts := (converted read_text write_notebook).
Local Abbreviation converts_all := (all_converted read_text write_notebook).
Local Abbreviation fails := (fails_with read_text write_notebook).

(** What one round of the loop does, by its result. *)
Lemma convert_file_cases (md_file : str) (w : process F) :
  match snd (convert_one md_file w) with
  | None =>
      converts md_file (files w) (files (fst (convert_one md_file w))) /\
      stdout (fst (convert_one md_file w))
        = stdout w ++ [created_message md_file]
  | Some e =>
      fails md_file (files w) e /\
      stdout (fst (convert_one md_file w)) = stdout w
  end.
Proof.
  unfold convert_file, converted, fails_with.
  destruct (read_text (files w) (md_path md_file)) as [md_content|e] eqn:Er.
  - destruct (notebook_cells md_file md_content) as [nb_cells|e] eqn:En.
    + destruct (write_notebook (files w) (notebook_filename md_file) nb_cells)
        as [fs' [e|]] eqn:Ew; cbn [fst snd files stdout].
      * split; [|reflexivity]. right. right.
        exists md_content, nb_cells, fs', e. auto.
      * split; [|reflexivity].
        exists md_content, nb_cells. auto.
    + cbn [fst snd]. split; [|reflexivity]. right. left.
      exists md_content, e. auto.
  - cbn [fst snd]. split; [|reflexivity]. left. exists e. auto.
Qed.

(** What the loop does, by its result: without an exception every file of
    the list is converted and has its line; with an exception the files
    before the one that fails are converted and have their lines, and
    nothing is printed for the one that fails or the ones after it. *)
Lemma convert_files_cases (mds : list str) (w : process F) :
  match snd (convert_all mds w) with
  | None =>
      converts_all mds (files w) (files (fst (convert_all mds w))) /\
      stdout (fst (convert_all mds w)) = stdout w ++ map created_message mds
  | Some e =>
      exists done md_file rest fs1,
        mds = done ++ md_file :: rest /\
        converts_all done (files w) fs1 /\
        fails md_file fs1 e /\
        stdout (fst (convert_all mds w))
          = stdout w ++ map created_message done
  end.
Proof.
  revert w; induction mds as [|f mds IH]; intros w.
  - cbn [convert_files fst snd map]. rewrite app_nil_r.
    split; [constructor | reflexivity].
  - cbn [convert_files].
    pose proof (convert_file_cases f w) as Hf.
    destruct (convert_one f w) as [w1 [e|]]; cbn [fst snd] in Hf.
    + cbn [fst snd]. destruct Hf as [Hfail Hout].
      exists [], f, mds, (files w). cbn [app map]. rewrite app_nil_r.
      repeat split; [constructor | exact Hfail | exact Hout].
    + destruct Hf as [Hconv Hout]. specialize (IH w1).
      destruct (snd (convert_all mds w1)) as [e|].
      * destruct IH as (done & g & rest & fs1 & -> & Hdone & Hfail & Hs).
        exists (f :: done), g, rest, fs1.
        repeat split; [econstructor; eassumption | exact Hfail |].
        rewrite Hs, Hout, <- app_assoc. reflexivity.
      * destruct IH as [Hall Hs]. split.
        -- econstructor; eassumption.
        -- rewrite Hs, Hout, <- app_assoc. reflexivity.
Qed.

(** X16: the script prints its line "Notebook created successfully" for
    exactly the files it has converted, in the order of the list: all of
    them, followed by the closing line, when no exception is raised; and
    otherwise the files before the first one whose reading, title step or
    writing raises, with no line for that file, none for the files after
    it and no closing line (no line at all when [os.makedirs] raises). *)
Theorem script_output (w : process F) :
  match snd (run_script w) with
  | None =>
      exists fs0,
        makedirs (files w) output_dir = (fs0, None) /\
        converts_all md_files fs0 (files (fst (run_script w))) /\
        stdout (fst (run_script w))
          = stdout w ++ map created_message md_files ++ [final_message]
  | Some e =>
      (exists fs0 e',
          makedirs (files w) output_dir = (fs0, Some e') /\ e = IoExn e' /\
          stdout (fst (run_script w)) = stdout w)
      \/
      (exists fs0 done md_file rest fs1,
          makedirs (files w) output_dir = (fs0, None) /\
          md_files = done ++ md_file :: rest /\
          converts_all done fs0 fs1 /\
          fails md_file fs1 e /\
          stdout (fst (run_script w))
            = stdout w ++ map created_message done)
  end.
Proof.
  unfold script.
  destruct (makedirs (files w) output_dir) as [fs0 [e|]].
  - cbn [fst snd stdout]. left. exists fs0, e. auto.
  - pose proof (convert_files_cases md_files
                  {| files := fs0; stdout := stdout w |}) as H.
    destruct (convert_all md_files {| files := fs0; stdout := stdout w |})
      as [w1 [e|]]; cbn [fst snd files stdout] in *.
    + right. destruct H as (done & f & rest & fs1 & Hm & Hd & Hf & Hs).
      exists fs0, done, f, rest, fs1. auto.
    + destruct H as [Hall Hs]. exists fs0.
      split; [reflexivity|]. split; [exact Hall|].
      rewrite Hs, <- app_assoc. reflexivity.
Qed.

End ScriptFacts.

Lemma file_without_cells_stops_loop_witness :
  convert_files
    (fun (_ : unit) (path : str) =>
       if eqb path (py "./blank.md") then inl empty else inl (py "# T"))
    (fun (f : unit) (_ : str) (_ : list cell) => (f, @None unit))
    ([py "first.md"] ++ py "blank.md" :: [py "last.md"])
    {| files := tt; stdout := [] |}
  = ({| files := tt; stdout := [created_message (py "first.md")] |},
     Some (PyExn IndexError)).
Proof.
  apply (file_without_cells_stops_loop
           unit unit
           (fun (_ : unit) (path : str) =>
              if eqb path (py "./blank.md") then inl empty else inl (py "# T"))
           (fun (f : unit) (_ : str) (_ : list cell) => (f, @None unit))
           [py "first.md"] (py "blank.md") [py "last.md"]
           {| files := tt; stdout := [] |}
           {| files := tt; stdout := [created_message (py "first.md")] |}
           empty);
    reflexivity.
Defined.

(** ** Properties of the set-up script *)

Section SetupFacts.

Import Setup.

Variables W E : Type.
Variable subprocess_run : W -> list str -> W * (completed + E).
Variable called_process_error_str : list str -> Z -> str.
Variable path_exists : W -> str -> bool.
Variable getpass : W -> W * (str + E).
Variable write_text : W -> str -> str -> W * option E.
Variable read_text : W -> str -> str + E.

Lemma ran_app (a b : list event) : ran (a ++ b) = ran a ++ ran b.
Proof.
  induction a as [|ev a IH]; [reflexivity|].
  destruct ev; simpl; rewrite IH; reflexivity.
Qed.

(** The body of the loop over the requirements, effect by effect. *)
Lemma install_packages_cons
      (python_path package : str) (rest : list str) (s : state W) :
  install_packages subprocess_run python_path (package :: rest) s =
    let show := show_command python_path package in
    let install := pip_install_command python_path package in
    match subprocess_run (world s) show with
    | (w1, inr e) =>
        ({| world := w1; trace := trace s ++ [Ran show None] |}, inr e)
    | (w1, inl r1) =>
        let t1 := trace s ++ [Ran show (Some (returncode r1))] in
        if (returncode r1 =? 0)%Z then
          let text := py "  " ++ [9989%N] ++ py " " ++ package
                        ++ py " is already installed." in
          install_packages subprocess_run python_path rest
            {| world := w1;
               trace := (t1 ++ [Printed text GREEN LF]) ++ [Logged INFO text] |}
        else
          match subprocess_run w1 install with
          | (w2, inr e) =>
              ({| world := w2; trace := t1 ++ [Ran install None] |}, inr e)
          | (w2, inl r2) =>
              let t2 := t1 ++ [Ran install (Some (returncode r2))] in
              if (returncode r2 =? 0)%Z then
                let text := py "  " ++ [9989%N] ++ py " Installed " ++ package
                              ++ py " successfully." in
                install_packages subprocess_run python_path rest
                  {| world := w2;
                     trace := (t2 ++ [Printed text GREEN LF])
                                ++ [Logged INFO text] |}
              else
                let error_msg :=
                  py "  " ++ [10060%N] ++ py " Failed to install " ++ package
                    ++ py ". Error: " ++ err r2 in
                ({| world := w2;
                    trace := ((t2 ++ [Printed error_msg RED LF])
                                ++ [Logged INFO error_msg])
                               ++ [Logged ERROR error_msg] |}, inl false)
          end
    end.
Proof.
  cbn [install_packages]. unfold bind, run, print_color, bind, emit, ret.
  cbv zeta.
  destruct (subprocess_run (world s) (show_command python_path package))
    as [w1 [r1|e1]]; [|reflexivity].
  destruct (returncode r1 =? 0)%Z; [reflexivity|]. cbn [world trace].
  destruct (subprocess_run w1 (pip_install_command python_path package))
    as [w2 [r2|e2]]; [|reflexivity].
  destruct (returncode r2 =? 0)%Z; reflexivity.
Qed.

Lemma removed_app (a b : list event) :
  removed (a ++ b) = removed a ++ removed b.
Proof.
  induction a as [|ev a IH]; [reflexivity|].
  destruct ev; simpl; rewrite IH; reflexivity.
Qed.

Lemma created_app (a b : list event) :
  created (a ++ b) = created a ++ created b.
Proof.
  induction a as [|ev a IH]; [reflexivity|].
  destruct ev; simpl; rewrite IH; reflexivity.
Qed.

(** Nothing is removed and no environment is created. *)
Ltac quiet Hq :=
  rewrite ?removed_app, ?created_app; cbn [removed created app];
  try (destruct Hq as [-> ->]); split; reflexivity.

Lemma install_packages_commands
      (python_path : str) (requirements : list str) (s : state W) :
  exists evs,
    trace (fst (install_packages subprocess_run python_path requirements s))
      = trace s ++ evs /\
    pip_commands python_path requirements (ran evs)
      (returned (snd (install_packages subprocess_run python_path requirements s)))
    /\ (removed evs = [] /\ created evs = []).
Proof.
  revert s; induction requirements as [|package rest IH]; intros s.
  - exists []. simpl. rewrite app_nil_r.
    split; [reflexivity | split; [constructor | auto]].
  - rewrite install_packages_cons. cbv zeta.
    destruct (subprocess_run (world s) (show_command python_path package))
      as [w1 [r1|e1]].
    + destruct (Z.eqb_spec (returncode r1) 0) as [H1|H1].
      * rewrite H1.
        match goal with
        | |- context [install_packages _ _ rest ?s1] =>
            destruct (IH s1) as (evs & Ht & Hp & Hq)
        end.
        eexists. split; [|split].
        -- rewrite Ht. cbn [trace]. rewrite <- !app_assoc. reflexivity.
        -- rewrite !ran_app. cbn [ran app].
           constructor. exact Hp.
        -- quiet Hq.
      * destruct (subprocess_run w1 (pip_install_command python_path package))
          as [w2 [r2|e2]].
        -- destruct (Z.eqb_spec (returncode r2) 0) as [H2|H2].
           ++ rewrite H2.
              match goal with
              | |- context [install_packages _ _ rest ?s1] =>
                  destruct (IH s1) as (evs & Ht & Hp & Hq)
              end.
              eexists. split; [|split].
              ** rewrite Ht. cbn [trace]. rewrite <- !app_assoc. reflexivity.
              ** rewrite !ran_app. cbn [ran app].
                 constructor; assumption.
              ** quiet Hq.
           ++ cbn [fst snd trace]. eexists. split; [|split].
              ** rewrite <- !app_assoc. reflexivity.
              ** cbn [ran app returned]. constructor; assumption.
              ** split; reflexivity.
        -- cbn [fst snd trace]. eexists. split; [|split].
           ++ rewrite <- !app_assoc. reflexivity.
           ++ cbn [ran app returned]. constructor; assumption.
           ++ split; reflexivity.
    + cbn [fst snd trace]. eexists. split; [reflexivity|]. split.
      * cbn [ran returned]. constructor.
      * split; reflexivity.
Qed.

Lemma cons_eq_inv {A : Type} (x y : A) (l m : list A) :
  x :: l = y :: m -> x = y /\ l = m.
Proof. intros H. injection H as -> ->. auto. Qed.

Lemma show_not_install (a b c d : str) :
  show_command a b <> pip_install_command c d.
Proof.
  unfold show_command, pip_install_command. intros H.
  do 3 (apply cons_eq_inv in H; destruct H as [_ H]).
  apply cons_eq_inv in H. destruct H as [H _]. discriminate H.
Qed.

Lemma entry_eq_inv (c c' : list str) (st st' : option Z) :
  (c, st) = (c', st') -> c = c' /\ st = st'.
Proof. intros H. injection H as -> ->. auto. Qed.

Lemma pip_install_command_inj (a b c d : str) :
  pip_install_command a b = pip_install_command c d -> b = d.
Proof.
  unfold pip_install_command. intros H.
  do 4 (apply cons_eq_inv in H; destruct H as [_ H]).
  apply cons_eq_inv in H. apply H.
Qed.

Lemma pip_commands_install_guarded
      (python_path : str) (requirements : list str)
      (l : list (list str * option Z)) (r : option bool) :
  pip_commands python_path requirements l r ->
  forall l1 package status l2,
    l = l1 ++ (pip_install_command python_path package, status) :: l2 ->
    exists l0 rc,
      l1 = l0 ++ [(show_command python_path package, Some rc)] /\ rc <> 0%Z.
Proof.
  induction 1 as [ | p0 rest l r Hp IH | p0 rest rc l r Hrc Hp IH
                 | p0 rest rc rc' Hrc Hrc' | p0 rest | p0 rest rc Hrc ];
    intros l1 package status l2 El.
  - destruct l1; discriminate.
  - destruct l1 as [|x l1]; apply cons_eq_inv in El; destruct El as [Ex El].
    + apply entry_eq_inv in Ex. destruct Ex as [Ex _].
      exfalso. apply (show_not_install _ _ _ _ Ex).
    + destruct (IH _ _ _ _ El) as (l0 & rc & -> & Hne).
      exists (x :: l0), rc. split; [reflexivity | exact Hne].
  - destruct l1 as [|x l1]; apply cons_eq_inv in El; destruct El as [Ex El].
    + apply entry_eq_inv in Ex. destruct Ex as [Ex _].
      exfalso. apply (show_not_install _ _ _ _ Ex).
    + destruct l1 as [|y l1]; apply cons_eq_inv in El; destruct El as [Ey El].
      * apply entry_eq_inv in Ey. destruct Ey as [Ey _].
        apply pip_install_command_inj in Ey. subst.
        exists [], rc. split; [reflexivity | exact Hrc].
      * destruct (IH _ _ _ _ El) as (l0 & rc0 & -> & Hne).
        exists (x :: y :: l0), rc0. split; [reflexivity | exact Hne].
  - destruct l1 as [|x l1]; apply cons_eq_inv in El; destruct El as [Ex El].
    + apply entry_eq_inv in Ex. destruct Ex as [Ex _].
      exfalso. apply (show_not_install _ _ _ _ Ex).
    + destruct l1 as [|y l1]; apply cons_eq_inv in El; destruct El as [Ey El].
      * apply entry_eq_inv in Ey. destruct Ey as [Ey _].
        apply pip_install_command_inj in Ey. subst.
        exists [], rc. split; [reflexivity | exact Hrc].
      * destruct l1; discriminate.
  - destruct l1 as [|x l1]; apply cons_eq_inv in El; destruct El as [Ex El].
    + apply entry_eq_inv in Ex. destruct Ex as [Ex _].
      exfalso. apply (show_not_install _ _ _ _ Ex).
    + destruct l1; discriminate.
  - destruct l1 as [|x l1]; apply cons_eq_inv in El; destruct El as [Ex El].
    + apply entry_eq_inv in Ex. destruct Ex as [Ex _].
      exfalso. apply (show_not_install _ _ _ _ Ex).
    + destruct l1 as [|y l1]; apply cons_eq_inv in El; destruct El as [Ey El].
      * apply entry_eq_inv in Ey. destruct Ey as [Ey _].
        apply pip_install_command_inj in Ey. subst.
        exists [], rc. split; [reflexivity | exact Hrc].
      * destruct l1; discriminate.
Qed.

Lemma pip_commands_false_last
      (python_path : str) (requirements : list str)
      (l : list (list str * option Z)) (r : option bool) :
  pip_commands python_path requirements l r ->
  r = Some false ->
  exists l0 package rc,
    l = l0 ++ [(pip_install_command python_path package, Some rc)] /\
    rc <> 0%Z.
Proof.
  induction 1 as [ | p0 rest l r Hp IH | p0 rest rc l r Hrc Hp IH
                 | p0 rest rc rc' Hrc Hrc' | p0 rest | p0 rest rc Hrc ];
    intros Er; try discriminate.
  - destruct (IH Er) as (l0 & package & rc & -> & Hne).
    eexists (_ :: l0), package, rc. split; [reflexivity | exact Hne].
  - destruct (IH Er) as (l0 & package & rc0 & -> & Hne).
    eexists (_ :: _ :: l0), package, rc0. split; [reflexivity | exact Hne].
  - eexists [_], p0, rc'. split; [reflexivity | exact Hrc'].
Qed.

Lemma install_requirements_unfold (python_path : str) (s : state W) :
  install_requirements subprocess_run read_text python_path s =
    let text := py "Installing required packages:" in
    let s1 := {| world := world s;
                 trace := (trace s ++ [Printed text CYAN LF])
                            ++ [Logged INFO text] |} in
    match read_text (world s) (py "requirements.txt") with
    | inl content =>
        install_packages subprocess_run python_path (splitlines content) s1
    | inr e => (s1, inr e)
    end.
Proof.
  unfold install_requirements, print_color, bind, emit. cbn [world trace].
  destruct (read_text (world s) (py "requirements.txt")); reflexivity.
Qed.

(** X17: [install_requirements] runs [pip install] for a package only right
    after [pip show] for that same package has exited with a status other
    than 0; and it returns [False] only when the last command it has run is
    a [pip install] that exited with a status other than 0. *)
Theorem install_only_after_failed_show (python_path : str) (s : state W) :
  exists evs,
    trace (fst (install_requirements subprocess_run read_text python_path s))
      = trace s ++ evs /\
    (forall l1 package status l2,
        ran evs = l1 ++ (pip_install_command python_path package, status) :: l2 ->
        exists l0 rc,
          l1 = l0 ++ [(show_command python_path package, Some rc)] /\ rc <> 0%Z) /\
    (snd (install_requirements subprocess_run read_text python_path s)
       = inl false ->
     exists l0 package rc,
       ran evs = l0 ++ [(pip_install_command python_path package, Some rc)] /\
       rc <> 0%Z).
Proof.
  rewrite install_requirements_unfold. cbv zeta.
  destruct (read_text (world s) (py "requirements.txt")) as [content|e].
  - match goal with
    | |- context [install_packages _ _ _ ?s1] =>
        destruct (install_packages_commands python_path (splitlines content) s1)
          as (evs & Ht & Hp & _)
    end.
    eexists. split; [rewrite Ht; cbn [trace]; rewrite <- !app_assoc; reflexivity|].
    rewrite !ran_app. cbn [ran app]. split.
    + apply (pip_commands_install_guarded _ _ _ _ Hp).
    + intros Hr. apply (pip_commands_false_last _ _ _ _ Hp). rewrite Hr. reflexivity.
  - cbn [fst snd trace]. eexists. split; [rewrite <- !app_assoc; reflexivity|].
    cbn [ran app]. split.
    + intros l1 package status l2 El. destruct l1; discriminate.
    + discriminate.
Qed.

Lemma install_packages_all_present
      (python_path : str) (requirements : list str) (s : state W) :
  (forall w package,
      In package requirements ->
      exists w' r,
        subprocess_run w (show_command python_path package) = (w', inl r) /\
        returncode r = 0%Z) ->
  snd (install_packages subprocess_run python_path requirements s) = inl true /\
  exists evs,
    trace (fst (install_packages subprocess_run python_path requirements s))
      = trace s ++ evs /\
    ran evs = map (fun package =>
                     (show_command python_path package, Some 0%Z)) requirements.
Proof.
  revert s; induction requirements as [|package rest IH]; intros s Hall.
  - split; [reflexivity|]. exists []. simpl. rewrite app_nil_r. auto.
  - rewrite install_packages_cons. cbv zeta.
    destruct (Hall (world s) package (or_introl eq_refl)) as (w' & r & -> & Hr).
    rewrite Hr. cbn [Z.eqb].
    match goal with
    | |- context [install_packages _ _ rest ?s1] =>
        destruct (IH s1) as (Hs & evs & Ht & He)
    end.
    { intros w p Hp. apply Hall. right. exact Hp. }
    split; [exact Hs|].
    eexists. split; [rewrite Ht; cbn [trace]; rewrite <- !app_assoc; reflexivity|].
    rewrite !ran_app. cbn [ran app map]. rewrite He. reflexivity.
Qed.




(** *** The virtual environment *)

Variables major minor : N.
Variable getcwd : W -> str + E.
Variable os_path_join : str -> list str -> str.
Variable rmtree : W -> str -> W * option E.
Variable is_venv_installed : W -> bool.
Variable venv_create : W -> str -> W * option (str + E).
Variable platform_system : str.

Lemma install_python_venv_frame (version : str) (s : state W) :
  exists evs,
    trace (fst (install_python_venv subprocess_run called_process_error_str
                                    version s))
      = trace s ++ evs /\
    (removed evs = [] /\ created evs = []) /\ all_sudo (ran evs).
Proof.
  cbv [install_python_venv run_command bind run print_color emit ret].
  cbn [world trace].
  destruct (subprocess_run (world s) [py "sudo"; py "apt"; py "update"])
    as [w1 [r1|e1]].
  - destruct (returncode r1 =? 0)%Z.
    + cbn [world trace].
      destruct (subprocess_run w1
                  [py "sudo"; py "apt"; py "install"; py "-y";
                   py "python" ++ version ++ py "-venv"])
        as [w2 [r2|e2]];
        [destruct (returncode r2 =? 0)%Z|];
        cbn [fst snd trace]; eexists;
        (split; [rewrite <- !app_assoc; reflexivity|]);
        (split; [split; reflexivity|]);
        rewrite !ran_app; cbn [ran app];
        intros c [<-|[<-|[]]]; eexists; reflexivity.
    + cbn [fst snd trace]. eexists.
      split; [rewrite <- !app_assoc; reflexivity|].
      split; [split; reflexivity|].
      rewrite !ran_app. cbn [ran app].
      intros c [<-|[]]. eexists. reflexivity.
  - cbn [fst snd trace]. eexists.
    split; [rewrite <- !app_assoc; reflexivity|].
    split; [split; reflexivity|].
    rewrite !ran_app. cbn [ran app].
    intros c [<-|[]]. eexists. reflexivity.
Qed.

Lemma install_requirements_frame (python_path : str) (s : state W) :
  exists evs,
    trace (fst (install_requirements subprocess_run read_text python_path s))
      = trace s ++ evs /\
    (removed evs = [] /\ created evs = []).
Proof.
  rewrite install_requirements_unfold. cbv zeta.
  destruct (read_text (world s) (py "requirements.txt")) as [content|e].
  - match goal with
    | |- context [install_packages _ _ _ ?s1] =>
        destruct (install_packages_commands python_path (splitlines content) s1)
          as (evs & Ht & _ & Hq)
    end.
    eexists. split; [rewrite Ht; cbn [trace]; rewrite <- !app_assoc; reflexivity|].
    quiet Hq.
  - cbn [fst snd trace]. eexists.
    split; [rewrite <- !app_assoc; reflexivity | split; reflexivity].
Qed.

Local Abbreviation the_activate_path :=
  (activate_path os_path_join platform_system).

Lemma create_and_install_frame (venv_path : str) (s : state W) :
  exists evs,
    trace (fst (create_and_install subprocess_run read_text os_path_join
                                   venv_create platform_system venv_path s))
      = trace s ++ evs /\
    removed evs = [] /\ created evs = [venv_path] /\
    (forall a,
        snd (create_and_install subprocess_run read_text os_path_join
                                venv_create platform_system venv_path s)
          = inl (Some a) ->
        a = the_activate_path).
Proof.
  remember (create_and_install subprocess_run read_text os_path_join
              venv_create platform_system venv_path s) as r eqn:Er.
  unfold create_and_install in Er. unfold bind at 1 in Er.
  destruct (venv_create (world s) venv_path) as [w1 [[message|e]|]].
  - cbv [print_color bind emit ret] in Er. cbn [world trace] in Er. subst r.
    cbn [fst snd trace].
    eexists. split; [rewrite <- !app_assoc; reflexivity|].
    split; [reflexivity|]. split; [reflexivity|]. intros a H. discriminate H.
  - subst r. cbn [fst snd trace]. eexists. split; [reflexivity|].
    split; [reflexivity|]. split; [reflexivity|]. intros a H. discriminate H.
  - unfold bind at 1 in Er. unfold print_color, bind, emit at 1 2 in Er.
    cbn [world trace] in Er. unfold bind in Er.
    match type of Er with
    | context [install_requirements _ _ ?pp ?s1] =>
        destruct (install_requirements_frame pp s1) as (evs & Ht & Hq);
        destruct (install_requirements subprocess_run read_text pp s1)
          as [s2 [installed|e]]
    end; cbn [fst snd] in *.
    + destruct installed; cbn [negb] in Er; subst r; unfold ret;
        cbn [fst snd]; eexists;
        (split; [rewrite Ht; cbn [trace]; rewrite <- !app_assoc; reflexivity|]);
        rewrite ?removed_app, ?created_app; cbn [removed created app];
        destruct Hq as [-> ->];
        (split; [reflexivity|]); (split; [reflexivity|]); intros a H.
      * injection H as <-. reflexivity.
      * discriminate H.
    + subst r. cbn [fst snd]. eexists.
      split; [rewrite Ht; cbn [trace]; rewrite <- !app_assoc; reflexivity|].
      rewrite ?removed_app, ?created_app; cbn [removed created app].
      destruct Hq as [-> ->].
      split; [reflexivity|]. split; [reflexivity|]. intros a H. discriminate H.
Qed.

Lemma bind_print_color {A : Type} (text : str) (c : color) (end_ : str)
      (k : unit -> M W E A) (s : state W) :
  bind (print_color text c end_) k s =
    k tt {| world := world s;
            trace := (trace s ++ [Printed text c end_]) ++ [Logged INFO text] |}.
Proof. reflexivity. Qed.

Lemma ensure_venv_and_create_frame
      (venv_path python_version : str) (s : state W) :
  exists evs,
    trace (fst (ensure_venv_and_create
                  subprocess_run called_process_error_str read_text os_path_join
                  is_venv_installed venv_create platform_system
                  venv_path python_version s))
      = trace s ++ evs /\
    removed evs = [] /\
    (created evs = [] \/ created evs = [venv_path]) /\
    (created evs = [] -> all_sudo (ran evs)) /\
    (forall a,
        snd (ensure_venv_and_create
               subprocess_run called_process_error_str read_text os_path_join
               is_venv_installed venv_create platform_system
               venv_path python_version s)
          = inl (Some a) ->
        created evs = [venv_path] /\ a = the_activate_path).
Proof.
  remember (ensure_venv_and_create
              subprocess_run called_process_error_str read_text os_path_join
              is_venv_installed venv_create platform_system
              venv_path python_version s) as r eqn:Er.
  unfold ensure_venv_and_create in Er.
  destruct (is_venv_installed (world s)); cbn [negb] in Er.
  - destruct (create_and_install_frame venv_path s)
      as (evs & Ht & Hr & Hc & Ha).
    rewrite <- Er in Ht, Ha.
    exists evs. split; [exact Ht|]. split; [exact Hr|].
    split; [right; exact Hc|]. split.
    + intros H. rewrite H in Hc. discriminate Hc.
    + intros a H. split; [exact Hc | exact (Ha a H)].
  - rewrite bind_print_color in Er. unfold bind at 1 in Er.
    match type of Er with
    | context [install_python_venv _ _ ?v ?s1] =>
        destruct (install_python_venv_frame v s1) as (evs1 & Ht1 & Hq1 & Hs1);
        destruct (install_python_venv subprocess_run called_process_error_str
                                      v s1) as [s2 [installed|e]]
    end; cbn [fst snd trace] in *.
    + destruct installed; cbn [negb] in Er.
      * destruct (create_and_install_frame venv_path s2)
          as (evs & Ht & Hr & Hc & Ha).
        rewrite <- Er in Ht, Ha.
        eexists. split;
          [rewrite Ht, Ht1; rewrite <- !app_assoc; reflexivity|].
        rewrite ?removed_app, ?created_app; cbn [removed created app].
        destruct Hq1 as [-> ->]. rewrite Hr, Hc. cbn [app].
        split; [reflexivity|]. split; [right; reflexivity|]. split.
        -- discriminate.
        -- intros a H. split; [reflexivity | exact (Ha a H)].
      * rewrite bind_print_color in Er. unfold ret in Er.
        subst r. cbn [fst snd trace].
        eexists. split; [rewrite Ht1; rewrite <- !app_assoc; reflexivity|].
        rewrite ?removed_app, ?created_app, ?ran_app;
          cbn [removed created ran app].
        destruct Hq1 as [-> ->]. cbn [app].
        split; [reflexivity|]. split; [left; reflexivity|]. split.
        -- intros _. rewrite app_nil_r. exact Hs1.
        -- intros a H. discriminate H.
    + subst r. cbn [fst snd trace].
      eexists. split; [rewrite Ht1; rewrite <- !app_assoc; reflexivity|].
      rewrite ?removed_app, ?created_app, ?ran_app;
        cbn [removed created ran app].
      destruct Hq1 as [-> ->].
      split; [reflexivity|]. split; [left; reflexivity|]. split.
      * intros _. exact Hs1.
      * intros a H. discriminate H.
Qed.

Local Abbreviation run_setup_venv :=
  (setup_venv subprocess_run called_process_error_str path_exists read_text
              major minor getcwd os_path_join rmtree is_venv_installed
              venv_create platform_system).

Lemma setup_venv_trace (s : state W) :
  exists evs,
    trace (fst (run_setup_venv s)) = trace s ++ evs /\
    (forall p,
        In p (removed evs) ->
        exists cwd,
          getcwd (world s) = inl cwd /\ p = os_path_join cwd [py "venv"] /\
          path_exists (world s) p = true) /\
    length (removed evs) <= 1 /\
    (forall p,
        In p (created evs) ->
        exists cwd, getcwd (world s) = inl cwd /\ p = os_path_join cwd [py "venv"]) /\
    (created evs = [] -> all_sudo (ran evs)) /\
    (forall a,
        snd (run_setup_venv s) = inl (Some a) ->
        created evs <> [] /\ a = the_activate_path).
Proof.
  remember (run_setup_venv s) as r eqn:Er.
  unfold setup_venv in Er. unfold bind at 1 in Er.
  destruct (getcwd (world s)) as [cwd|e].
  - cbv zeta in Er. unfold bind at 1 in Er. unfold remove_existing in Er.
    destruct (path_exists (world s) (os_path_join cwd [py "venv"])) eqn:Hex.
    + rewrite bind_print_color in Er.
      unfold bind at 1 in Er. cbn [world trace] in Er.
      destruct (rmtree (world s) (os_path_join cwd [py "venv"])) as [w1 [e|]].
      * subst r. cbn [fst snd trace].
        eexists. split; [rewrite <- !app_assoc; reflexivity|].
        cbn [removed created ran app length]. repeat apply conj.
        -- intros p [<-|[]]. exists cwd. auto.
        -- apply Nat.le_refl.
        -- intros p [].
        -- intros _ c [].
        -- intros a H. discriminate H.
      * unfold print_color, bind, emit in Er. cbn [world trace] in Er.
        match type of Er with
        | context [ensure_venv_and_create _ _ _ _ _ _ _ ?vp ?v ?s1] =>
            destruct (ensure_venv_and_create_frame vp v s1)
              as (evs & Ht & Hr & Hc & Hs & Ha)
        end.
        rewrite <- Er in Ht, Ha.
        eexists. split; [rewrite Ht; cbn [trace]; rewrite <- !app_assoc; reflexivity|].
        rewrite ?removed_app, ?created_app, ?ran_app;
          cbn [removed created ran app length].
        rewrite Hr. cbn [length]. repeat apply conj.
        -- intros p [<-|[]]. exists cwd. auto.
        -- apply Nat.le_refl.
        -- intros p Hp. exists cwd. split; [reflexivity|].
           destruct Hc as [Hc|Hc]; rewrite Hc in Hp;
             [destruct Hp | destruct Hp as [<-|[]]; reflexivity].
        -- exact Hs.
        -- intros a H. destruct (Ha a H) as [H1 H2].
           split; [rewrite H1; discriminate | exact H2].
    + unfold ret at 1 in Er.
      match type of Er with
      | context [ensure_venv_and_create _ _ _ _ _ _ _ ?vp ?v ?s1] =>
          destruct (ensure_venv_and_create_frame vp v s1)
            as (evs & Ht & Hr & Hc & Hs & Ha)
      end.
      rewrite <- Er in Ht, Ha.
      exists evs. split; [exact Ht|]. rewrite Hr. repeat apply conj.
      * intros p [].
      * apply Nat.le_0_l.
      * intros p Hp. exists cwd. split; [reflexivity|].
        destruct Hc as [Hc|Hc]; rewrite Hc in Hp;
          [destruct Hp | destruct Hp as [<-|[]]; reflexivity].
      * exact Hs.
      * intros a H. destruct (Ha a H) as [H1 H2].
        split; [rewrite H1; discriminate | exact H2].
  - subst r. cbn [fst snd]. exists []. rewrite app_nil_r.
    cbn [removed created ran length]. repeat apply conj; auto.
    + intros p [].
    + intros p [].
    + intros _ c [].
    + intros a H. discriminate H.
Qed.

(** X21: the only directory tree [setup_venv] ever removes is the [venv]
    directory of the current directory, at most once, and only when it
    exists. *)
Theorem setup_venv_removes_only_venv (s : state W) :
  exists evs,
    trace (fst (run_setup_venv s)) = trace s ++ evs /\
    (forall p,
        In p (removed evs) ->
        exists cwd,
          getcwd (world s) = inl cwd /\ p = os_path_join cwd [py "venv"] /\
          path_exists (world s) p = true) /\
    length (removed evs) <= 1.
Proof.
  destruct (setup_venv_trace s) as (evs & Ht & Hr & Hl & _).
  exists evs. auto.
Qed.

(** *** The order of the commands *)

Lemma apt_not_pip (version : str) (l : list (list str * option Z)) :
  apt_only version l -> no_pip l.
Proof.
  intros H c python_path package Hc.
  unfold show_command, pip_install_command.
  destruct (H c Hc) as [-> | ->]; split; intros Eq.
  - do 3 (apply cons_eq_inv in Eq; destruct Eq as [_ Eq]). discriminate Eq.
  - do 3 (apply cons_eq_inv in Eq; destruct Eq as [_ Eq]). discriminate Eq.
  - apply cons_eq_inv in Eq. destruct Eq as [_ Eq].
    apply cons_eq_inv in Eq. destruct Eq as [Eq _]. discriminate Eq.
  - apply cons_eq_inv in Eq. destruct Eq as [_ Eq].
    apply cons_eq_inv in Eq. destruct Eq as [Eq _]. discriminate Eq.
Qed.

Lemma install_python_venv_apt (version : str) (s : state W) :
  exists evs,
    trace (fst (install_python_venv subprocess_run called_process_error_str
                                    version s))
      = trace s ++ evs /\
    created evs = [] /\ apt_only version (ran evs).
Proof.
  cbv [install_python_venv run_command bind run print_color emit ret].
  cbn [world trace].
  destruct (subprocess_run (world s) [py "sudo"; py "apt"; py "update"])
    as [w1 [r1|e1]].
  - destruct (returncode r1 =? 0)%Z.
    + cbn [world trace].
      destruct (subprocess_run w1
                  [py "sudo"; py "apt"; py "install"; py "-y";
                   py "python" ++ version ++ py "-venv"])
        as [w2 [r2|e2]];
        [destruct (returncode r2 =? 0)%Z|];
        cbn [fst snd trace]; eexists;
        (split; [rewrite <- !app_assoc; reflexivity|]);
        (split; [reflexivity|]);
        rewrite !ran_app; cbn [ran app];
        intros c [<-|[<-|[]]]; cbn [fst]; auto.
    + cbn [fst snd trace]. eexists.
      split; [rewrite <- !app_assoc; reflexivity|].
      split; [reflexivity|].
      rewrite !ran_app. cbn [ran app].
      intros c [<-|[]]. cbn [fst]. auto.
  - cbn [fst snd trace]. eexists.
    split; [rewrite <- !app_assoc; reflexivity|].
    split; [reflexivity|].
    rewrite !ran_app. cbn [ran app].
    intros c [<-|[]]. cbn [fst]. auto.
Qed.

Lemma pip_commands_pip_only
      (python_path : str) (requirements : list str)
      (l : list (list str * option Z)) (r : option bool) :
  pip_commands python_path requirements l r -> pip_only python_path l.
Proof.
  induction 1 as [ | p0 rest l r Hp IH | p0 rest rc l r Hrc Hp IH
                 | p0 rest rc rc' Hrc Hrc' | p0 rest | p0 rest rc Hrc ];
    intros c Hc.
  - destruct Hc.
  - destruct Hc as [<-|Hc]; [exists p0; left; reflexivity | exact (IH c Hc)].
  - destruct Hc as [<-|[<-|Hc]];
      [exists p0; left; reflexivity | exists p0; right; reflexivity
      | exact (IH c Hc)].
  - destruct Hc as [<-|[<-|[]]];
      [exists p0; left; reflexivity | exists p0; right; reflexivity].
  - destruct Hc as [<-|[]]. exists p0. left. reflexivity.
  - destruct Hc as [<-|[<-|[]]];
      [exists p0; left; reflexivity | exists p0; right; reflexivity].
Qed.

Lemma install_requirements_pip (python_path : str) (s : state W) :
  exists evs,
    trace (fst (install_requirements subprocess_run read_text python_path s))
      = trace s ++ evs /\
    created evs = [] /\ pip_only python_path (ran evs).
Proof.
  rewrite install_requirements_unfold. cbv zeta.
  destruct (read_text (world s) (py "requirements.txt")) as [content|e].
  - match goal with
    | |- context [install_packages _ _ _ ?s1] =>
        destruct (install_packages_commands python_path (splitlines content) s1)
          as (evs & Ht & Hp & _ & Hc)
    end.
    eexists. split; [rewrite Ht; cbn [trace]; rewrite <- !app_assoc; reflexivity|].
    rewrite !created_app, !ran_app. cbn [created ran app]. split; [exact Hc|].
    apply (pip_commands_pip_only _ _ _ _ Hp).
  - cbn [fst snd trace]. eexists.
    split; [rewrite <- !app_assoc; reflexivity|].
    cbn [created ran app]. split; [reflexivity|]. intros c [].
Qed.

Local Abbreviation the_python_path venv_path :=
  (python_path_of os_path_join platform_system venv_path).

(** From the creation on: the environment is asked for first, and only
    [pip] commands of its interpreter follow. *)
Lemma create_and_install_order (venv_path : str) (s : state W) :
  exists after,
    trace (fst (create_and_install subprocess_run read_text os_path_join
                                   venv_create platform_system venv_path s))
      = trace s ++ CreatedVenv venv_path :: after /\
    created after = [] /\
    pip_only (the_python_path venv_path) (ran after) /\
    (forall a,
        snd (create_and_install subprocess_run read_text os_path_join
                                venv_create platform_system venv_path s)
          = inl (Some a) ->
        a = the_activate_path).
Proof.
  remember (create_and_install subprocess_run read_text os_path_join
              venv_create platform_system venv_path s) as r eqn:Er.
  unfold create_and_install in Er. unfold bind at 1 in Er.
  destruct (venv_create (world s) venv_path) as [w1 [[message|e]|]].
  - cbv [print_color bind emit ret] in Er. cbn [world trace] in Er. subst r.
    cbn [fst snd trace].
    eexists. split; [rewrite <- !app_assoc; reflexivity|].
    cbn [created ran app]. split; [reflexivity|]. split; [intros c []|].
    intros a H. discriminate H.
  - subst r. cbn [fst snd trace]. exists [].
    split; [reflexivity|]. split; [reflexivity|]. split; [intros c []|].
    intros a H. discriminate H.
  - unfold bind at 1 in Er. unfold print_color, bind, emit at 1 2 in Er.
    cbn [world trace] in Er. unfold bind in Er.
    match type of Er with
    | context [install_requirements _ _ ?pp ?s1] =>
        destruct (install_requirements_pip pp s1) as (evs & Ht & Hc & Hp);
        destruct (install_requirements subprocess_run read_text pp s1)
          as [s2 [installed|e]]
    end; cbn [fst snd] in *.
    + destruct installed; cbn [negb] in Er; subst r; unfold ret;
        cbn [fst snd]; eexists;
        (split; [rewrite Ht; cbn [trace]; rewrite <- !app_assoc; reflexivity|]);
        rewrite ?created_app, ?ran_app; cbn [created ran app];
        (split; [exact Hc|]); (split; [exact Hp|]); intros a H.
      * injection H as <-. reflexivity.
      * discriminate H.
    + subst r. cbn [fst snd]. eexists.
      split; [rewrite Ht; cbn [trace]; rewrite <- !app_assoc; reflexivity|].
      rewrite ?created_app, ?ran_app; cbn [created ran app].
      split; [exact Hc|]. split; [exact Hp|]. intros a H. discriminate H.
Qed.

Lemma ensure_venv_and_create_order
      (venv_path python_version : str) (s : state W) :
  exists evs,
    trace (fst (ensure_venv_and_create
                  subprocess_run called_process_error_str read_text os_path_join
                  is_venv_installed venv_create platform_system
                  venv_path python_version s))
      = trace s ++ evs /\
    ((created evs = [] /\ apt_only python_version (ran evs) /\
      forall a,
        snd (ensure_venv_and_create
               subprocess_run called_process_error_str read_text os_path_join
               is_venv_installed venv_create platform_system
               venv_path python_version s) <> inl (Some a))
     \/
     (exists before after,
         evs = before ++ CreatedVenv venv_path :: after /\
         created before = [] /\ created after = [] /\
         apt_only python_version (ran before) /\
         pip_only (the_python_path venv_path) (ran after) /\
         (forall a,
             snd (ensure_venv_and_create
                    subprocess_run called_process_error_str read_text
                    os_path_join is_venv_installed venv_create platform_system
                    venv_path python_version s) = inl (Some a) ->
             a = the_activate_path))).
Proof.
  remember (ensure_venv_and_create
              subprocess_run called_process_error_str read_text os_path_join
              is_venv_installed venv_create platform_system
              venv_path python_version s) as r eqn:Er.
  unfold ensure_venv_and_create in Er.
  destruct (is_venv_installed (world s)); cbn [negb] in Er.
  - destruct (create_and_install_order venv_path s)
      as (after & Ht & Hc & Hp & Ha).
    rewrite <- Er in Ht, Ha.
    eexists. split; [exact Ht|]. right. exists [], after.
    repeat apply conj; auto. intros c [].
  - rewrite bind_print_color in Er. unfold bind at 1 in Er.
    match type of Er with
    | context [install_python_venv _ _ ?v ?s1] =>
        destruct (install_python_venv_apt v s1) as (evs1 & Ht1 & Hc1 & Hs1);
        destruct (install_python_venv subprocess_run called_process_error_str
                                      v s1) as [s2 [installed|e]]
    end; cbn [fst snd trace] in *.
    + destruct installed; cbn [negb] in Er.
      * destruct (create_and_install_order venv_path s2)
          as (after & Ht & Hc & Hp & Ha).
        rewrite <- Er in Ht, Ha.
        eexists. split;
          [rewrite Ht, Ht1; rewrite <- !app_assoc; reflexivity|].
        right. eexists (_ :: _ :: evs1), after.
        split; [reflexivity|]. cbn [created ran].
        repeat apply conj; auto.
      * rewrite bind_print_color in Er. unfold ret in Er.
        subst r. cbn [fst snd trace].
        eexists. split; [rewrite Ht1; rewrite <- !app_assoc; reflexivity|].
        left.
        rewrite ?created_app, ?ran_app; cbn [created ran app].
        rewrite !app_nil_r.
        split; [exact Hc1|]. split; [exact Hs1|]. intros a H. discriminate H.
    + subst r. cbn [fst snd trace].
      eexists. split; [rewrite Ht1; rewrite <- !app_assoc; reflexivity|].
      left.
      rewrite ?created_app, ?ran_app; cbn [created ran app].
      split; [exact Hc1|]. split; [exact Hs1|]. intros a H. discriminate H.
Qed.

Local Abbreviation the_version := (get_python_version major minor).

(** The order of the effects of [setup_venv]. *)
Lemma setup_venv_order (s : state W) :
  exists evs,
    trace (fst (run_setup_venv s)) = trace s ++ evs /\
    ((created evs = [] /\ apt_only the_version (ran evs) /\
      forall a, snd (run_setup_venv s) <> inl (Some a))
     \/
     (exists cwd before after,
         getcwd (world s) = inl cwd /\
         evs = before ++ CreatedVenv (os_path_join cwd [py "venv"]) :: after /\
         created before = [] /\ created after = [] /\
         apt_only the_version (ran before) /\ no_pip (ran before) /\
         pip_only (the_python_path (os_path_join cwd [py "venv"])) (ran after) /\
         (forall a,
             snd (run_setup_venv s) = inl (Some a) -> a = the_activate_path))).
Proof.
  remember (run_setup_venv s) as r eqn:Er.
  unfold setup_venv in Er. unfold bind at 1 in Er.
  destruct (getcwd (world s)) as [cwd|e].
  - cbv zeta in Er. unfold bind at 1 in Er. unfold remove_existing in Er.
    destruct (path_exists (world s) (os_path_join cwd [py "venv"])).
    + rewrite bind_print_color in Er.
      unfold bind at 1 in Er. cbn [world trace] in Er.
      destruct (rmtree (world s) (os_path_join cwd [py "venv"])) as [w1 [e|]].
      * subst r. cbn [fst snd trace].
        eexists. split; [rewrite <- !app_assoc; reflexivity|].
        left. cbn [created ran app]. repeat apply conj; auto.
        -- intros c [].
        -- intros a H. discriminate H.
      * unfold print_color, bind, emit in Er. cbn [world trace] in Er.
        match type of Er with
        | context [ensure_venv_and_create _ _ _ _ _ _ _ ?vp ?v ?s1] =>
            destruct (ensure_venv_and_create_order vp v s1) as (evs & Ht & H)
        end.
        rewrite <- Er in Ht, H.
        eexists. split; [rewrite Ht; cbn [trace]; rewrite <- !app_assoc; reflexivity|].
        destruct H as [(Hc & Ha & Hn) | (before & after & -> & Hb & Hc & Ha & Hp & Hr)].
        -- left. rewrite ?created_app, ?ran_app; cbn [created ran app].
           auto.
        -- right. eexists cwd, (_ :: _ :: _ :: _ :: _ :: before), after.
           cbn [created ran app].
           repeat apply conj; auto. apply (apt_not_pip _ _ Ha).
    + unfold ret at 1 in Er.
      match type of Er with
      | context [ensure_venv_and_create _ _ _ _ _ _ _ ?vp ?v ?s1] =>
          destruct (ensure_venv_and_create_order vp v s1) as (evs & Ht & H)
      end.
      rewrite <- Er in Ht, H.
      exists evs. split; [exact Ht|].
      destruct H as [(Hc & Ha & Hn) | (before & after & -> & Hb & Hc & Ha & Hp & Hr)].
      * left. auto.
      * right. exists cwd, before, after.
        repeat apply conj; auto. apply (apt_not_pip _ _ Ha).
  - subst r. cbn [fst snd]. exists []. rewrite app_nil_r.
    split; [reflexivity|]. left. cbn [created ran].
    repeat apply conj; auto.
    + intros c [].
    + intros a H. discriminate H.
Qed.

(** X22: in every run of [setup_venv] the commands come in this order.
    Either [venv.create] is never called: then the only commands run are
    the two [apt] commands under [sudo], and no path is returned.  Or it is
    called exactly once, on the [venv] directory of the current directory:
    then every command before the call is one of the two [apt] commands, so
    no [pip] command runs before the environment is asked for; every
    command after it is a [pip show] or [pip install] run by the
    interpreter of that environment; and a path that is returned is the
    path of the activation script for the platform. *)
Theorem setup_venv_creates_before_pip (s : state W) :
  exists evs,
    trace (fst (run_setup_venv s)) = trace s ++ evs /\
    ((created evs = [] /\ apt_only the_version (ran evs) /\
      no_pip (ran evs) /\
      forall a, snd (run_setup_venv s) <> inl (Some a))
     \/
     (exists cwd before after,
         getcwd (world s) = inl cwd /\
         evs = before ++ CreatedVenv (os_path_join cwd [py "venv"]) :: after /\
         created before = [] /\ created after = [] /\
         apt_only the_version (ran before) /\ no_pip (ran before) /\
         pip_only (the_python_path (os_path_join cwd [py "venv"])) (ran after) /\
         (forall a,
             snd (run_setup_venv s) = inl (Some a) -> a = the_activate_path))).
Proof.
  destruct (setup_venv_order s) as (evs & Ht & [(Hc & Ha & Hn) | H]).
  - exists evs. split; [exact Ht|]. left.
    repeat apply conj; auto. apply (apt_not_pip _ _ Ha).
  - exists evs. split; [exact Ht|]. right. exact H.
Qed.

End SetupFacts.


(** A run of [install_python_venv] where [apt update] fails. *)
Example apt_update_fails :
  let subprocess_run :=
    fun (w : unit) (_ : list str) =>
      (w, @inl Setup.completed unit
            {| Setup.returncode := 100; Setup.out := empty;
               Setup.err := py "E: no network" |}) in
  let r := install_python_venv subprocess_run (fun _ _ => py "apt failed")
             (py "3.11") {| Setup.world := tt; Setup.trace := [] |} in
  snd r = inl false /\
  Setup.ran (Setup.trace (fst r))
    = [([py "sudo"; py "apt"; py "update"], Some 100%Z)].
Proof. split; reflexivity. Qed.

Example python_version_example :
  get_python_version 3 11 = py "3.11".
Proof. reflexivity. Qed.

(** A run of [setup_venv] on a machine without the [venv] module where
    [apt] fails: the old environment is removed, nothing is created. *)
Example setup_venv_without_venv_module :
  let subprocess_run :=
    fun (w : unit) (_ : list str) =>
      (w, @inl Setup.completed unit
            {| Setup.returncode := 1; Setup.out := empty; Setup.err := empty |}) in
  let r :=
    setup_venv subprocess_run (fun _ _ => py "failed") (fun _ _ => true)
               (fun _ _ => @inl str unit empty) 3 12
               (fun _ => @inl str unit (py "/home/u/llm"))
               OsPath.join (fun w _ => (w, @None unit)) (fun _ => false)
               (fun w _ => (w, @None (str + unit))) (py "Linux")
               {| Setup.world := tt; Setup.trace := [] |} in
  snd r = inl None /\
  Setup.removed (Setup.trace (fst r)) = [py "/home/u/llm/venv"] /\
  Setup.created (Setup.trace (fst r)) = [] /\
  Setup.ran (Setup.trace (fst r))
    = [([py "sudo"; py "apt"; py "update"], Some 1%Z)].
Proof. repeat split; reflexivity. Qed.
